(** * NASA space explorer: the fetch / filter / render pipeline

    A shallow embedding of the gallery script (fetchAndShow, applyFilter,
    buildGallery, openModal, closeModal) and the properties of its
    data-to-view pipeline.

    The page is a record of the DOM handles the script grabs at start-up
    together with its one global, [lastFetchedItems].  Handlers are
    computations in a state-and-exception monad over that record: a JavaScript
    [throw] keeps every DOM write made before it, and [try]/[catch]/[finally]
    are combinators.  An [async] handler is run to quiescence: each awaited
    timer elapses and no other handler is interleaved. *)

From Stdlib Require Import List String Ascii ZArith Bool Lia.
Import ListNotations.
Local Open Scope string_scope.
Local Open Scope Z_scope.

(** ** JavaScript values of the feed *)

(** One entry of the feed: a JSON object whose properties, where present, are
    strings.  [None] is a missing property, read by the script as
    [undefined]. *)
Record Apod := mkApod {
  title : option string;
  date : option string;
  explanation : option string;
  media_type : option string;
  url : option string;
  hdurl : option string
}.

(** An element of the fetched array: an object, or JSON [null], on which any
    property read throws. *)
Inductive Item :=
| Null
| Obj (r : Apod).

(** The body delivered by [res.json()]: [null], an array, or an object given
    by its own properties in the order [Object.values] enumerates them. *)
Inductive Payload :=
| PNull
| PArray (elems : list Item)
| PObject (props : list (string * Item)).

Record JsError := mkError { name : string; message : string }.

Inductive result (A : Type) :=
| Ok (a : A)
| Throw (e : JsError).
Arguments Ok {A} a.
Arguments Throw {A} e.

(** What the script takes from the JavaScript engine: the time value of
    [new Date(s)] ([None] is NaN, an Invalid Date) and the wording of the two
    TypeErrors the engine itself raises. *)
Record Host := mkHost {
  Date_parse : string -> option Z;
  nullReadMessage : string -> string;
  nullValuesMessage : string
}.

Definition TypeError (msg : string) : JsError := mkError "TypeError" msg.
Definition Error (msg : string) : JsError := mkError "Error" msg.

(** ** Operators *)

Definition str_truthy (s : string) : bool := negb (s =? EmptyString)%string.

(** Truthiness of a property value: [undefined] and the empty string are falsy. *)
Definition truthy (v : option string) : bool :=
  match v with
  | Some s => str_truthy s
  | None => false
  end.

(** [a || b] *)
Definition js_or (a b : option string) : option string :=
  if truthy a then a else b.

(** String conversion of a property value, as a template literal or a DOM
    string attribute performs it. *)
Definition ToString (v : option string) : string :=
  match v with
  | Some s => s
  | None => "undefined"
  end.

(** [v === s] for a string literal [s] *)
Definition strict_eq (v : option string) (s : string) : bool :=
  match v with
  | Some t => (t =? s)%string
  | None => false
  end.

(** A Date object is its time value. *)
Definition Date := option Z.

(** [a < b] and [a > b] on Date objects: both compare time values, and any
    comparison with NaN is false. *)
Definition date_lt (a b : Date) : bool :=
  match a, b with
  | Some x, Some y => x <? y
  | _, _ => false
  end.

Definition date_gt (a b : Date) : bool := date_lt b a.

(** ** The page *)

Record Card := mkCard {
  img_src : string;
  img_alt : string;
  caption : string;
  on_click : Apod
}.

(** A child of the gallery: a [div.placeholder] (the loading one carries the
    spinner; [fade_out] is the class added before a scene change) or an
    [article.gallery-item]. *)
Inductive Node :=
| Placeholder (spinner : bool) (fade_out : bool) (text : string)
| GalleryItem (c : Card).

Record Button := mkButton {
  disabled : bool;
  textContent : string
}.

Record Gallery := mkGallery {
  children : list Node;
  aria_busy : option string
}.

Record Modal := mkModal {
  show : bool;
  aria_hidden : option string;
  modalImage_src : string;
  modalImage_alt : string;
  modalTitle : string;
  modalDate : string;
  modalExplanation : string
}.

Record World := mkWorld {
  getImageBtn : Button;
  gallery : Gallery;
  modal : Modal;
  startDateInput : string;
  endDateInput : string;
  lastFetchedItems : option (list Item);
  console : list (string * JsError);
  now : Z
}.

Definition with_getImageBtn (b : Button) (w : World) : World :=
  mkWorld b (gallery w) (modal w) (startDateInput w) (endDateInput w)
          (lastFetchedItems w) (console w) (now w).

Definition with_gallery (g : Gallery) (w : World) : World :=
  mkWorld (getImageBtn w) g (modal w) (startDateInput w) (endDateInput w)
          (lastFetchedItems w) (console w) (now w).

Definition with_modal (m : Modal) (w : World) : World :=
  mkWorld (getImageBtn w) (gallery w) m (startDateInput w) (endDateInput w)
          (lastFetchedItems w) (console w) (now w).

Definition with_lastFetchedItems (c : option (list Item)) (w : World) : World :=
  mkWorld (getImageBtn w) (gallery w) (modal w) (startDateInput w)
          (endDateInput w) c (console w) (now w).

Definition with_console (l : list (string * JsError)) (w : World) : World :=
  mkWorld (getImageBtn w) (gallery w) (modal w) (startDateInput w)
          (endDateInput w) (lastFetchedItems w) l (now w).

Definition with_inputs (startVal endVal : string) (w : World) : World :=
  mkWorld (getImageBtn w) (gallery w) (modal w) startVal endVal
          (lastFetchedItems w) (console w) (now w).

Definition with_now (t : Z) (w : World) : World :=
  mkWorld (getImageBtn w) (gallery w) (modal w) (startDateInput w)
          (endDateInput w) (lastFetchedItems w) (console w) t.

(** ** Handlers as computations *)

(** A handler run: the value returned or the exception thrown, and the page
    as the run leaves it. *)
Definition M (A : Type) : Type := World -> result A * World.

Definition ret {A} (a : A) : M A := fun w => (Ok a, w).

Definition bind {A B} (m : M A) (k : A -> M B) : M B :=
  fun w =>
    match m w with
    | (Ok a, w') => k a w'
    | (Throw e, w') => (Throw e, w')
    end.

Definition throw {A} (e : JsError) : M A := fun w => (Throw e, w).

Definition lift {A} (r : result A) : M A := fun w => (r, w).

Definition gets {A} (f : World -> A) : M A := fun w => (Ok (f w), w).

Definition modify (f : World -> World) : M unit := fun w => (Ok tt, f w).

Notation "x <- m ;; k" := (bind m (fun x => k))
  (at level 61, m at next level, right associativity).
Notation "m ;; k" := (bind m (fun _ => k))
  (at level 61, right associativity).

(** [try { body } catch (err) { handler }] *)
Definition try_catch {A} (body : M A) (handler : JsError -> M A) : M A :=
  fun w =>
    match body w with
    | (Ok a, w') => (Ok a, w')
    | (Throw e, w') => handler e w'
    end.

(** [... finally { cleanup }]: the cleanup runs on both exits and the
    body's completion stands unless the cleanup itself throws. *)
Definition finally {A} (body : M A) (cleanup : M unit) : M A :=
  fun w =>
    match body w with
    | (r, w') =>
        match cleanup w' with
        | (Ok _, w'') => (r, w'')
        | (Throw e, w'') => (Throw e, w'')
        end
    end.

(** A call of an [async] function that is not awaited: the caller goes on,
    and an exception inside the callee rejects a promise nobody holds. *)
Definition detached (m : M unit) : M unit :=
  fun w => (Ok tt, snd (m w)).

(** [await new Promise(r => setTimeout(r, ms))]: the clock moves on by the
    delay; no other listener runs in between. *)
Definition sleep (ms : Z) : M unit :=
  modify (fun w => with_now (now w + ms) w).

(** [Array.prototype.filter] with a callback that may throw: elements are
    visited in order and the first exception ends the visit. *)
Fixpoint js_filter (f : Item -> result bool) (l : list Item)
  : result (list Item) :=
  match l with
  | [] => Ok []
  | x :: rest =>
      match f x with
      | Throw e => Throw e
      | Ok b =>
          match js_filter f rest with
          | Throw e => Throw e
          | Ok kept => Ok (if b then x :: kept else kept)
          end
      end
  end.

(** [Array.prototype.forEach] *)
Fixpoint forEach (f : Item -> M unit) (l : list Item) : M unit :=
  match l with
  | [] => ret tt
  | x :: rest => f x ;; forEach f rest
  end.

(** ** DOM helpers *)

Definition set_innerHTML (nodes : list Node) : M unit :=
  modify (fun w => with_gallery (mkGallery nodes (aria_busy (gallery w))) w).

Definition appendChild (n : Node) : M unit :=
  modify (fun w =>
    with_gallery (mkGallery (children (gallery w) ++ [n])
                            (aria_busy (gallery w))) w).

Definition set_aria_busy (v : option string) : M unit :=
  modify (fun w => with_gallery (mkGallery (children (gallery w)) v) w).

Definition is_placeholder (n : Node) : bool :=
  match n with
  | Placeholder _ _ _ => true
  | GalleryItem _ => false
  end.

(** [gallery.querySelector('.placeholder')] finds something *)
Definition has_placeholder (l : list Node) : bool := existsb is_placeholder l.

(** [classList.add('fade-out')] on the first placeholder in document order *)
Fixpoint add_fade_out (l : list Node) : list Node :=
  match l with
  | [] => []
  | Placeholder sp _ t :: rest => Placeholder sp true t :: rest
  | n :: rest => n :: add_fade_out rest
  end.

Definition classList_add_fade_out : M unit :=
  modify (fun w =>
    with_gallery (mkGallery (add_fade_out (children (gallery w)))
                            (aria_busy (gallery w))) w).

(** The block the script repeats at lines 87-91, 163-168 and 177-181: fade
    the placeholder, if there is one, and wait for the CSS transition. *)
Definition fade_placeholder : M unit :=
  placeholder <- gets (fun w => has_placeholder (children (gallery w))) ;;
  if (placeholder : bool)
  then classList_add_fade_out ;; sleep 380
  else ret tt.

(** ** The network *)

(** How one [fetch(apodData)] ends: the promise rejects, or a response
    arrives with its [ok] flag and what [res.json()] makes of the body. *)
Inductive Response :=
| Rejected (e : JsError)
| Responded (ok : bool) (json : result Payload).

Record Fetch := mkFetch {
  latency : Z;
  response : Response
}.

(** ** Messages *)

Definition dquote : string := String (ascii_of_nat 34) EmptyString.

Definition msg_loading : string := "Fetching images…".
Definition msg_no_images : string := "No images found.".
Definition msg_no_data : string :=
  "No data loaded. Click " ++ dquote ++ "Fetch Space Images" ++ dquote
  ++ " first.".
Definition msg_no_match : string := "No images match that date range.".
Definition msg_error (err : JsError) : string :=
  "Error loading images: " ++ message err.

(** ** The script *)

Section Script.

Variable host : Host.

(** [it.media_type], [item.url]: reading property [p] *)
Definition get_prop {A} (p : string) (field : Apod -> A) (it : Item)
  : result A :=
  match it with
  | Null => Throw (TypeError (nullReadMessage host p))
  | Obj r => Ok (field r)
  end.

(** [new Date(v)] for a property value *)
Definition new_Date (v : option string) : Date :=
  match v with
  | Some s => Date_parse host s
  | None => None
  end.

(** [it => it.media_type === 'image'] (lines 55 and 107) *)
Definition isImage (it : Item) : result bool :=
  match get_prop "media_type" media_type it with
  | Throw e => Throw e
  | Ok m => Ok (strict_eq m "image")
  end.

(** Lines 22-32. *)
Definition showLoading : M unit :=
  set_innerHTML [Placeholder true false msg_loading] ;;
  set_aria_busy (Some "true").

(** Lines 35-43. *)
Definition openModal (item : Apod) : M unit :=
  modify (fun w =>
    with_modal
      (mkModal true (Some "false")
         (ToString (js_or (js_or (hdurl item) (url item)) (Some EmptyString)))
         (ToString (js_or (title item) (Some "NASA image")))
         (ToString (js_or (title item) (Some EmptyString)))
         (ToString (js_or (date item) (Some EmptyString)))
         (ToString (js_or (explanation item) (Some EmptyString))))
      w).

(** Lines 45-50. *)
Definition closeModal : M unit :=
  modify (fun w =>
    with_modal
      (mkModal false (Some "true") EmptyString
         (modalImage_alt (modal w)) (modalTitle (modal w))
         (modalDate (modal w)) (modalExplanation (modal w)))
      w).

(** Lines 65-79: the card built for one image; its click listener closes
    over the item. *)
Definition createCard (it : Item) : result Card :=
  match it with
  | Null => Throw (TypeError (nullReadMessage host "url"))
  | Obj item =>
      Ok (mkCard (ToString (url item))
                 (ToString (js_or (title item) (Some "APOD image")))
                 (ToString (title item) ++ " — " ++ ToString (date item))
                 item)
  end.

(** The click listener of a card (line 79). *)
Definition click (c : Card) : M unit := openModal (on_click c).

(** Lines 53-83. *)
Definition buildGallery (items : list Item) : M unit :=
  images <- lift (js_filter isImage items) ;;
  if (List.length images =? 0)%nat
  then set_innerHTML [Placeholder false false msg_no_images]
  else
    set_innerHTML [] ;;
    forEach (fun item =>
               card <- lift (createCard item) ;;
               appendChild (GalleryItem card))
            images.

(** Lines 86-93. *)
Definition transitionToGallery (items : list Item) : M unit :=
  fade_placeholder ;;
  buildGallery items.

(** Lines 112-118: the two bounds as the filter callback sees them.  A bound
    is [None] ([null]) when its input is empty, and a Date object, valid or
    not, otherwise; the pair is swapped when both are there and
    [start > end]. *)
Definition dateBounds (startVal endVal : string) : option Date * option Date :=
  let start := if str_truthy startVal
               then Some (Date_parse host startVal) else None in
  let end_ := if str_truthy endVal
              then Some (Date_parse host endVal) else None in
  match start, end_ with
  | Some s, Some e => if date_gt s e then (end_, start) else (start, end_)
  | _, _ => (start, end_)
  end.

(** Lines 120-126: the filter callback. *)
Definition keepItem (start end_ : option Date) (it : Item) : result bool :=
  match get_prop "media_type" media_type it with
  | Throw e => Throw e
  | Ok m =>
      if negb (strict_eq m "image") then Ok false
      else
        match get_prop "date" date it with
        | Throw e => Throw e
        | Ok v =>
            let d := new_Date v in
            if match start with Some s => date_lt d s | None => false end
            then Ok false
            else if match end_ with Some e => date_gt d e | None => false end
            then Ok false
            else Ok true
        end
  end.

(** Lines 96-134.  [transitionToGallery] is called without [await]. *)
Definition applyFilter : M unit :=
  cache <- gets lastFetchedItems ;;
  match cache with
  | None => set_innerHTML [Placeholder false false msg_no_data]
  | Some items =>
      startVal <- gets startDateInput ;;
      endVal <- gets endDateInput ;;
      if negb (str_truthy startVal) && negb (str_truthy endVal)
      then
        images <- lift (js_filter isImage items) ;;
        detached (transitionToGallery images)
      else
        let (start, end_) := dateBounds startVal endVal in
        filtered <- lift (js_filter (keepItem start end_) items) ;;
        if (List.length filtered =? 0)%nat
        then set_innerHTML [Placeholder false false msg_no_match]
        else detached (transitionToGallery filtered)
  end.

(** The Filter Engine inside [applyFilter]: the array that lines 105-126
    compute from the cached items and the values of the two date inputs, and
    that the handler then shows. *)
Definition filter_engine (items : list Item) (startVal endVal : string)
  : result (list Item) :=
  if negb (str_truthy startVal) && negb (str_truthy endVal)
  then js_filter isImage items
  else
    let (start, end_) := dateBounds startVal endVal in
    js_filter (keepItem start end_) items.

(** [Object.values(data)] *)
Definition Object_values (data : Payload) : result (list Item) :=
  match data with
  | PNull => Throw (TypeError (nullValuesMessage host))
  | PArray elems => Ok elems
  | PObject props => Ok (map snd props)
  end.

(** Line 153: [Array.isArray(data) ? data : Object.values(data)] *)
Definition normalize (data : Payload) : result (list Item) :=
  match data with
  | PArray elems => Ok elems
  | _ => Object_values data
  end.

(** [await fetch(apodData)] followed by the [res.ok] test and
    [await res.json()] (lines 148-150). *)
Definition fetch_json (net : Fetch) : M Payload :=
  sleep (latency net) ;;
  match response net with
  | Rejected e => throw e
  | Responded ok json =>
      if negb ok then throw (Error "Network response was not ok")
      else lift json
  end.

Definition MIN_LOADING_MS : Z := 1200.

Definition set_button (d : bool) (label : string) : M unit :=
  modify (with_getImageBtn (mkButton d label)).

(** Lines 158-160 and 174-176. *)
Definition wait_minimum (start : Z) : M unit :=
  t <- gets now ;;
  let elapsed := t - start in
  let remaining := MIN_LOADING_MS - elapsed in
  if remaining >? 0 then sleep remaining else ret tt.

(** Lines 144-171: the [try] block. *)
Definition try_block (net : Fetch) (start : Z) : M unit :=
  set_button true "Loading…" ;;
  showLoading ;;
  data <- fetch_json net ;;
  items <- lift (normalize data) ;;
  modify (with_lastFetchedItems (Some items)) ;;
  wait_minimum start ;;
  fade_placeholder ;;
  buildGallery items.

(** Lines 172-183: the [catch] block.  Line 182 writes the message into
    the placeholder through [innerHTML]; the placeholder's text here is the
    message as written, which is what the page shows when the message holds
    no markup. *)
Definition catch_block (start : Z) (err : JsError) : M unit :=
  wait_minimum start ;;
  fade_placeholder ;;
  set_innerHTML [Placeholder false false (msg_error err)] ;;
  modify (fun w => with_console (console w ++ [("Fetch error:", err)]) w).

(** Lines 184-189: the [finally] block. *)
Definition finally_block (originalBtnText : string) : M unit :=
  set_button false
    (if str_truthy originalBtnText then originalBtnText
     else "Fetch Space Images") ;;
  set_aria_busy None.

(** Lines 137-190. *)
Definition fetchAndShow (net : Fetch) : M unit :=
  originalBtnText <- gets (fun w => textContent (getImageBtn w)) ;;
  start <- gets now ;;
  finally
    (try_catch (try_block net start) (catch_block start))
    (finally_block originalBtnText).

End Script.

(** ** A reference host and sample data *)

(** Date-only ISO strings, [YYYY-MM-DD], read as UTC midnight; every other
    string is an Invalid Date. *)
Module Iso.

Definition digit (c : ascii) : option Z :=
  let n := Z.of_nat (nat_of_ascii c) in
  if (48 <=? n) && (n <=? 57) then Some (n - 48) else None.

Fixpoint number (acc : Z) (cs : list ascii) : option Z :=
  match cs with
  | [] => Some acc
  | c :: rest =>
      match digit c with
      | Some d => number (10 * acc + d) rest
      | None => None
      end
  end.

Definition is_leap (y : Z) : bool :=
  ((y mod 4 =? 0) && negb (y mod 100 =? 0)) || (y mod 400 =? 0).

Definition days_in_month (y m : Z) : Z :=
  if m =? 2 then (if is_leap y then 29 else 28)
  else if (m =? 4) || (m =? 6) || (m =? 9) || (m =? 11) then 30
  else 31.

(** Days from 1970-01-01 to the civil date, proleptic Gregorian. *)
Definition days_from_civil (y m d : Z) : Z :=
  let y' := if m <=? 2 then y - 1 else y in
  let era := y' / 400 in
  let yoe := y' - era * 400 in
  let doy := (153 * (if m >? 2 then m - 3 else m + 9) + 2) / 5 + d - 1 in
  let doe := yoe * 365 + yoe / 4 - yoe / 100 + doy in
  era * 146097 + doe - 719468.

Definition ms_per_day : Z := 86400000.

Definition is_dash (c : ascii) : bool := (nat_of_ascii c =? 45)%nat.

Definition parse (s : string) : option Z :=
  match list_ascii_of_string s with
  | [y1; y2; y3; y4; h1; m1; m2; h2; d1; d2] =>
      match number 0 [y1; y2; y3; y4], number 0 [m1; m2],
            number 0 [d1; d2] with
      | Some y, Some m, Some d =>
          if is_dash h1 && is_dash h2
             && (1 <=? m) && (m <=? 12)
             && (1 <=? d) && (d <=? days_in_month y m)
          then Some (days_from_civil y m d * ms_per_day)
          else None
      | _, _, _ => None
      end
  | _ => None
  end.

End Iso.

Definition reference_host : Host :=
  mkHost Iso.parse
         (fun p => "Cannot read properties of null (reading '" ++ p ++ "')")
         "Cannot convert undefined or null to object".

Definition blank_modal : Modal :=
  mkModal false (Some "true") EmptyString EmptyString EmptyString
          EmptyString EmptyString.

(** The page as loaded: nothing fetched, both date inputs empty. *)
Definition initial_page : World :=
  mkWorld (mkButton false "Fetch Space Images")
          (mkGallery [Placeholder false false "Select a date range"] None)
          blank_modal EmptyString EmptyString None [] 0.

(** The two records of the scenarios in the specification. *)
Definition record_A : Apod :=
  mkApod (Some "A") (Some "2024-01-01") None (Some "image") (Some "a.jpg")
         None.

Definition record_B : Apod :=
  mkApod (Some "B") (Some "2024-01-05") None (Some "video") (Some "b.mp4")
         None.

Definition record_C : Apod :=
  mkApod (Some "C") (Some "2024-01-07") (Some "A galaxy") (Some "image")
         (Some "c.jpg") (Some "c_hd.jpg").

(** ** Notions used in the statements *)

Definition is_image (r : Apod) : bool := strict_eq (media_type r) "image".

(** The card [createCard] builds for an object. *)
Definition card_of (r : Apod) : Card :=
  mkCard (ToString (url r))
         (ToString (js_or (title r) (Some "APOD image")))
         (ToString (title r) ++ " — " ++ ToString (date r))
         r.

(** What the gallery holds once [buildGallery] has run on these images. *)
Definition gallery_view (images : list Apod) : list Node :=
  match images with
  | [] => [Placeholder false false msg_no_images]
  | _ :: _ => map (fun r => GalleryItem (card_of r)) images
  end.

(** The cards among the children of the gallery, in document order. *)
Definition cards (nodes : list Node) : list Card :=
  flat_map (fun n => match n with
                     | GalleryItem c => [c]
                     | Placeholder _ _ _ => []
                     end) nodes.

(** The records on show: the one behind each card. *)
Definition shown (nodes : list Node) : list Apod := map on_click (cards nodes).

Definition or_empty (v : option string) : string :=
  match v with
  | Some s => s
  | None => EmptyString
  end.

(** A child of the gallery that does not show a non-image record. *)
Definition image_node (n : Node) : Prop :=
  match n with
  | GalleryItem c => media_type (on_click c) = Some "image"
  | Placeholder _ _ _ => True
  end.

(** At least one of the two date inputs is filled in. *)
Definition bounds_given (startVal endVal : string) : bool :=
  str_truthy startVal || str_truthy endVal.

(** The boolean the filter callback returns on an object. *)
Definition keep (host : Host) (start end_ : option Date) (r : Apod) : bool :=
  is_image r
  && negb (match start with
           | Some s => date_lt (new_Date host (date r)) s
           | None => false
           end)
  && negb (match end_ with
           | Some e => date_gt (new_Date host (date r)) e
           | None => false
           end).

(** The objects [filter_engine] retains. *)
Definition selected (host : Host) (startVal endVal : string) (rs : list Apod)
  : list Apod :=
  if bounds_given startVal endVal
  then filter (keep host (fst (dateBounds host startVal endVal))
                         (snd (dateBounds host startVal endVal))) rs
  else filter is_image rs.

(** What [applyFilter] leaves in the gallery for a selection. *)
Definition filter_view (startVal endVal : string) (sel : list Apod)
  : list Node :=
  if bounds_given startVal endVal
  then match sel with
       | [] => [Placeholder false false msg_no_match]
       | _ :: _ => gallery_view sel
       end
  else gallery_view sel.

(** [s] is a date the host reads, with time value [t]; an empty input is no
    date at all. *)
Definition valid_date (host : Host) (s : string) (t : Z) : Prop :=
  str_truthy s = true /\ Date_parse host s = Some t.

(** The page after [fade_placeholder]. *)
Definition faded (w : World) : World :=
  if has_placeholder (children (gallery w))
  then with_now (now w + 380)
         (with_gallery (mkGallery (add_fade_out (children (gallery w)))
                                  (aria_busy (gallery w))) w)
  else w.

(** The label the [finally] block puts back on the button. *)
Definition restored_label (original : string) : string :=
  if str_truthy original then original else "Fetch Space Images".

(** A computation leaves an observation of the page as it found it. *)
Definition preserves {A X} (f : World -> X) (m : M A) : Prop :=
  forall w, f (snd (m w)) = f w.

(** The children of the gallery, as an observation of the page. *)
Definition nodes (w : World) : list Node := children (gallery w).

(** A page for the scenarios: the cache holds [items] and the date inputs
    hold the two values. *)
Definition page (items : list Item) (startVal endVal : string) : World :=
  with_inputs startVal endVal
    (with_lastFetchedItems (Some items) initial_page).

Definition failing_fetch : Fetch :=
  mkFetch 40 (Rejected (TypeError "Failed to fetch")).

Definition unlabelled_page : World :=
  with_getImageBtn (mkButton false EmptyString) initial_page.

(** The cache of the scenarios. *)
Definition sample_items : list Item :=
  [Obj record_A; Obj record_B; Obj record_C].

Definition record_empty_hd : Apod :=
  mkApod (Some "D") (Some "2024-01-09") (Some "A nebula") (Some "image")
         (Some "d.jpg") (Some EmptyString).

(** ** Event wiring *)

(** What can happen to the page: the user's clicks and key presses the
    script listens to (lines 192-203, and line 79 for the cards), and the
    user editing one of the two date inputs, which no listener observes. *)
Inductive Event :=
| ClickGetImageBtn (net : Fetch)
| ClickFilterBtn
| KeydownStartDate (key : string)
| KeydownEndDate (key : string)
| KeydownWindow (key : string)
| ClickModalOverlay
| ClickModalClose
| ClickCard (index : nat)
| EditStartDate (value : string)
| EditEndDate (value : string).

Section Wiring.

Variable host : Host.

(** A listener as the browser runs it: what it throws is reported, not
    propagated, and the page stays as the listener left it. *)
Definition listener (m : M unit) (w : World) : World := snd (m w).

(** Lines 197 and 198: [(e) => { if (e.key === 'Enter') applyFilter(); }] *)
Definition onDateKeydown (key : string) : M unit :=
  if (key =? "Enter")%string then applyFilter host else ret tt.

(** Lines 201-203. *)
Definition onWindowKeydown (key : string) : M unit :=
  open <- gets (fun w => show (modal w)) ;;
  if (key =? "Escape")%string && (open : bool) then closeModal else ret tt.

(** One event.  A disabled button dispatches no click; a key pressed in a
    date input reaches the listener of the input and then, bubbling, the one
    of the window; the click on the card at [index] reaches that card's
    listener. *)
Definition dispatch (ev : Event) (w : World) : World :=
  match ev with
  | ClickGetImageBtn net =>
      if disabled (getImageBtn w) then w
      else listener (fetchAndShow host net) w
  | ClickFilterBtn => listener (applyFilter host) w
  | KeydownStartDate key | KeydownEndDate key =>
      listener (onWindowKeydown key) (listener (onDateKeydown key) w)
  | KeydownWindow key => listener (onWindowKeydown key) w
  | ClickModalOverlay | ClickModalClose => listener closeModal w
  | ClickCard index =>
      match nth_error (cards (nodes w)) index with
      | Some c => listener (click c) w
      | None => w
      end
  | EditStartDate value => with_inputs value (endDateInput w) w
  | EditEndDate value => with_inputs (startDateInput w) value w
  end.

(** A session: events handled one after the other. *)
Definition run (evs : list Event) (w : World) : World :=
  fold_left (fun w ev => dispatch ev w) evs w.

End Wiring.

(** ** Earlier versions of the script *)

(** The first version, src/js/script.js lines 122-214: no cache, no filter,
    no button handling, no minimum loading time.  [openModal], [closeModal]
    and [buildGallery] are those above. *)
Module Draft1.
Section Script.

Variable host : Host.

(** Lines 136-138. *)
Definition showLoading : M unit :=
  set_innerHTML [Placeholder false false msg_loading].

(** Lines 192-206. *)
Definition fetchAndShow (net : Fetch) : M unit :=
  try_catch
    (showLoading ;;
     data <- fetch_json net ;;
     items <- lift (normalize host data) ;;
     buildGallery host items)
    (fun err =>
       set_innerHTML [Placeholder false false (msg_error err)] ;;
       modify (fun w => with_console (console w ++ [("Fetch error:", err)]) w)).

End Script.
End Draft1.

(** The second version, src/js/script.js lines 1-121: the button is disabled
    while loading and the minimum loading time is waited for in the
    [finally] block; still no cache and no fade. *)
Module Draft2.
Section Script.

Variable host : Host.

(** Lines 80-111. *)
Definition fetchAndShow (net : Fetch) : M unit :=
  originalBtnText <- gets (fun w => textContent (getImageBtn w)) ;;
  start <- gets now ;;
  finally
    (try_catch
       (set_button true "Loading…" ;;
        showLoading ;;
        data <- fetch_json net ;;
        items <- lift (normalize host data) ;;
        buildGallery host items)
       (fun err =>
          set_innerHTML [Placeholder false false (msg_error err)] ;;
          modify (fun w =>
            with_console (console w ++ [("Fetch error:", err)]) w)))
    (wait_minimum start ;;
     set_button false
       (if str_truthy originalBtnText then originalBtnText
        else "Fetch Space Images") ;;
     set_aria_busy None).

End Script.
End Draft2.

(** ** Notions used in the further properties *)

(** The error a response makes the [try] block throw before anything is
    cached, if any. *)
Definition fetch_failure (host : Host) (r : Response) : option JsError :=
  match r with
  | Rejected e => Some e
  | Responded false _ => Some (Error "Network response was not ok")
  | Responded true (Throw e) => Some e
  | Responded true (Ok data) =>
      match normalize host data with
      | Throw e => Some e
      | Ok _ => None
      end
  end.

(** A gallery child as the script builds them: a placeholder, or the card of
    an image record. *)
Definition built_node (n : Node) : Prop :=
  match n with
  | Placeholder _ _ _ => True
  | GalleryItem c => c = card_of (on_click c) /\ is_image (on_click c) = true
  end.

(** The overlay is either open and announced, or closed, hidden and without
    an image. *)
Definition overlay_coherent (m : Modal) : Prop :=
  (show m = true /\ aria_hidden m = Some "false")
  \/ (show m = false /\ aria_hidden m = Some "true"
      /\ modalImage_src m = EmptyString).

(** The fetch button is ready and the gallery is not marked busy. *)
Definition idle (w : World) : Prop :=
  disabled (getImageBtn w) = false /\ aria_busy (gallery w) = None.

(** The page while the request is in flight, [lat] milliseconds after the
    click: button disabled and relabelled, spinner in the gallery, gallery
    marked busy (lines 145-148). *)
Definition loading_page (lat : Z) (w : World) : World :=
  with_now (now w + lat)
    (with_gallery (mkGallery [Placeholder true false msg_loading]
                             (Some "true"))
       (with_getImageBtn (mkButton true "Loading…") w)).

(** The TypeError of reading [media_type] off [null]. *)
Definition null_item_error (host : Host) : JsError :=
  TypeError (nullReadMessage host "media_type").

(** A session for the scenarios: fetch the sample feed, type a start date,
    press Enter, open the first card, press Escape, fetch again and fail. *)
Definition sample_session : list Event :=
  [ ClickGetImageBtn
      (mkFetch 300 (Responded true (Ok (PArray sample_items))));
    EditStartDate "2024-01-05";
    KeydownStartDate "Enter";
    ClickCard 0;
    KeydownWindow "Escape";
    ClickGetImageBtn failing_fetch ].

(** No event of the session is a click on the fetch button. *)
Definition no_fetch (evs : list Event) : Prop :=
  Forall (fun ev => match ev with
                    | ClickGetImageBtn _ => False
                    | _ => True
                    end) evs.

(** The objects of an array, and whether it holds a [null]. *)
Definition objects (items : list Item) : list Apod :=
  flat_map (fun it => match it with Obj r => [r] | Null => [] end) items.

Definition has_null (items : list Item) : bool :=
  existsb (fun it => match it with Null => true | Obj _ => false end) items.

(** What a response leads to: the records that get rendered, or the error
    that is shown instead. *)
Definition fetch_outcome (host : Host) (r : Response) : result (list Apod) :=
  match r with
  | Rejected e => Throw e
  | Responded false _ => Throw (Error "Network response was not ok")
  | Responded true (Throw e) => Throw e
  | Responded true (Ok data) =>
      match normalize host data with
      | Throw e => Throw e
      | Ok items =>
          if has_null items then Throw (null_item_error host)
          else Ok (objects items)
      end
  end.

Definition outcome_nodes (o : result (list Apod)) : list Node :=
  match o with
  | Ok rs => gallery_view (filter is_image rs)
  | Throw err => [Placeholder false false (msg_error err)]
  end.

Definition outcome_console (o : result (list Apod))
    (log : list (string * JsError)) : list (string * JsError) :=
  match o with
  | Ok _ => log
  | Throw err => log ++ [("Fetch error:", err)]
  end.

(** A bound as the user gives it: the input left empty, or holding a valid
    date with this time value. *)
Inductive Bound :=
| Absent
| At (t : Z).


(** The range the two bounds stand for: each bound present is included, an
    absent bound asks nothing, and two bounds given in the wrong order are
    exchanged. *)
Definition in_range (start end_ : Bound) (d : Z) : Prop :=
  match start, end_ with
  | Absent, Absent => True
  | At s, Absent => s <= d
  | Absent, At e => d <= e
  | At s, At e => if e <? s then e <= d /\ d <= s else s <= d /\ d <= e
  end.

(** A message the browser shows as it is when it is written through
    [innerHTML]: no tag opener, no character reference, no NUL and no
    carriage return. *)
Definition markup_free (s : string) : bool :=
  forallb (fun c => negb (existsb (Nat.eqb (nat_of_ascii c)) [60; 38; 0; 13]%nat))
          (list_ascii_of_string s).

Definition record_undated : Apod :=
  mkApod (Some "E") (Some "last week") None (Some "image") (Some "e.jpg")
         None.

(** * Properties *)

(** ** Operators and filters *)

Lemma str_truthy_true (s : string) : s <> EmptyString -> str_truthy s = true.
Proof. destruct s; [congruence | reflexivity]. Qed.

Lemma js_or_empty (v : option string) :
  ToString (js_or v (Some EmptyString)) = or_empty v.
Proof.
  destruct v as [s|]; [|reflexivity].
  destruct s; reflexivity.
Qed.

Lemma filter_idem {A} (p : A -> bool) (l : list A) :
  filter p (filter p l) = filter p l.
Proof.
  induction l as [|x l IH]; [reflexivity|].
  simpl. destruct (p x) eqn:E; simpl; [rewrite E, IH|]; auto.
Qed.

Lemma filter_and_l {A} (p q : A -> bool) (l : list A) :
  (forall x, q x = true -> p x = true) ->
  filter p (filter q l) = filter q l.
Proof.
  intros Hpq. induction l as [|x l IH]; [reflexivity|].
  simpl. destruct (q x) eqn:E; simpl; [rewrite (Hpq _ E), IH|]; auto.
Qed.

(** On an array of objects a callback that answers on every object makes
    [js_filter] the list filter. *)
Lemma js_filter_Obj (f : Item -> result bool) (g : Apod -> bool) rs :
  (forall r, f (Obj r) = Ok (g r)) ->
  js_filter f (map Obj rs) = Ok (map Obj (filter g rs)).
Proof.
  intros Hf. induction rs as [|r rs IH]; [reflexivity|].
  simpl. rewrite Hf, IH. destruct (g r); reflexivity.
Qed.

(** A callback that throws on [null] lets [js_filter] finish only on an
    array of objects. *)
Lemma js_filter_Ok_objects (f : Item -> result bool) items sel :
  (exists e, f Null = Throw e) ->
  js_filter f items = Ok sel ->
  exists rs, items = map Obj rs.
Proof.
  intros [e He]. revert sel.
  induction items as [|it items IH]; intros sel H.
  - exists []. reflexivity.
  - simpl in H. destruct it as [|r].
    + rewrite He in H. discriminate.
    + destruct (f (Obj r)); [|discriminate].
      destruct (js_filter f items) as [kept|]; [|discriminate].
      destruct (IH kept eq_refl) as [rs ->].
      exists (r :: rs). reflexivity.
Qed.

Section Callbacks.

Variable host : Host.

Lemma isImage_Obj r : isImage host (Obj r) = Ok (is_image r).
Proof. reflexivity. Qed.

Lemma isImage_Null : exists e, isImage host Null = Throw e.
Proof. eexists. reflexivity. Qed.

Lemma keepItem_Obj start end_ r :
  keepItem host start end_ (Obj r) = Ok (keep host start end_ r).
Proof.
  unfold keepItem, keep, is_image. simpl.
  destruct (strict_eq (media_type r) "image"); simpl; [|reflexivity].
  destruct start as [s|], end_ as [e|]; simpl;
    repeat match goal with |- context [if ?b then _ else _] => destruct b end;
    reflexivity.
Qed.

Lemma keepItem_Null start end_ :
  exists e, keepItem host start end_ Null = Throw e.
Proof. eexists. reflexivity. Qed.

Lemma keep_is_image start end_ r : keep host start end_ r = true -> is_image r = true.
Proof.
  unfold keep. intros H.
  apply andb_true_iff in H as [H _]. apply andb_true_iff in H as [H _]. exact H.
Qed.

Lemma bounds_given_false a b :
  bounds_given a b = false ->
  negb (str_truthy a) && negb (str_truthy b) = true.
Proof.
  unfold bounds_given. destruct (str_truthy a), (str_truthy b); auto.
Qed.

Lemma bounds_given_true a b :
  bounds_given a b = true ->
  negb (str_truthy a) && negb (str_truthy b) = false.
Proof.
  unfold bounds_given. destruct (str_truthy a), (str_truthy b); auto.
Qed.

Lemma selected_images a b rs : Forall (fun r => is_image r = true) (selected host a b rs).
Proof.
  unfold selected. apply Forall_forall. intros r Hr.
  destruct (bounds_given a b); apply filter_In in Hr as [_ Hr];
    eauto using keep_is_image.
Qed.

Lemma filter_is_image_selected a b rs :
  filter is_image (selected host a b rs) = selected host a b rs.
Proof.
  unfold selected. destruct (bounds_given a b).
  - apply filter_and_l. apply keep_is_image.
  - apply filter_idem.
Qed.

(** The engine on a cache of objects. *)
Lemma filter_engine_Obj a b rs :
  filter_engine host (map Obj rs) a b = Ok (map Obj (selected host a b rs)).
Proof.
  unfold filter_engine, selected.
  destruct (bounds_given a b) eqn:G.
  - rewrite (bounds_given_true _ _ G).
    destruct (dateBounds host a b) as [s e]. simpl.
    apply js_filter_Obj. apply keepItem_Obj.
  - rewrite (bounds_given_false _ _ G).
    apply js_filter_Obj. apply isImage_Obj.
Qed.

(** The engine finishes only on a cache of objects. *)
Lemma filter_engine_Ok_objects items a b sel :
  filter_engine host items a b = Ok sel -> exists rs, items = map Obj rs.
Proof.
  unfold filter_engine.
  destruct (negb (str_truthy a) && negb (str_truthy b)).
  - apply js_filter_Ok_objects, isImage_Null.
  - destruct (dateBounds host a b).
    apply js_filter_Ok_objects, keepItem_Null.
Qed.

End Callbacks.

(** ** Running the monad *)

Lemma bind_Ok {A B} (m : M A) (k : A -> M B) w a w' :
  m w = (Ok a, w') -> bind m k w = k a w'.
Proof. intros H. unfold bind. rewrite H. reflexivity. Qed.

Lemma bind_Throw {A B} (m : M A) (k : A -> M B) w e w' :
  m w = (Throw e, w') -> bind m k w = (Throw e, w').
Proof. intros H. unfold bind. rewrite H. reflexivity. Qed.

Lemma bind_Ok_inv {A B} (m : M A) (k : A -> M B) w b w' :
  bind m k w = (Ok b, w') ->
  exists a w1, m w = (Ok a, w1) /\ k a w1 = (Ok b, w').
Proof.
  unfold bind. destruct (m w) as [[a|e] w1]; intros H.
  - exists a, w1. auto.
  - discriminate.
Qed.

Lemma with_gallery_same w : with_gallery (gallery w) w = w.
Proof. destruct w. reflexivity. Qed.

Lemma gallery_eta g : mkGallery (children g) (aria_busy g) = g.
Proof. destruct g. reflexivity. Qed.

(** ** Frame rules: what a computation leaves alone *)

Create HintDb frame.

Lemma preserves_ret {A X} (f : World -> X) (a : A) : preserves f (ret a).
Proof. intros w. reflexivity. Qed.

Lemma preserves_throw {A X} (f : World -> X) e : preserves f (@throw A e).
Proof. intros w. reflexivity. Qed.

Lemma preserves_lift {A X} (f : World -> X) (r : result A) :
  preserves f (lift r).
Proof. intros w. reflexivity. Qed.

Lemma preserves_gets {A X} (f : World -> X) (g : World -> A) :
  preserves f (gets g).
Proof. intros w. reflexivity. Qed.

Lemma preserves_modify {X} (f : World -> X) (g : World -> World) :
  (forall w, f (g w) = f w) -> preserves f (modify g).
Proof. intros H w. apply H. Qed.

Lemma preserves_bind {A B X} (f : World -> X) (m : M A) (k : A -> M B) :
  preserves f m -> (forall a, preserves f (k a)) -> preserves f (bind m k).
Proof.
  intros Hm Hk w. unfold bind.
  specialize (Hm w). destruct (m w) as [[a|e] w1]; simpl in *.
  - rewrite Hk. exact Hm.
  - exact Hm.
Qed.

Lemma preserves_if {A X} (f : World -> X) (b : bool) (m1 m2 : M A) :
  preserves f m1 -> preserves f m2 -> preserves f (if b then m1 else m2).
Proof. destruct b; auto. Qed.

Lemma preserves_try_catch {A X} (f : World -> X) (m : M A) h :
  preserves f m -> (forall e, preserves f (h e)) ->
  preserves f (try_catch m h).
Proof.
  intros Hm Hh w. unfold try_catch.
  specialize (Hm w). destruct (m w) as [[a|e] w1]; simpl in *.
  - exact Hm.
  - rewrite Hh. exact Hm.
Qed.

Lemma preserves_finally {A X} (f : World -> X) (m : M A) c :
  preserves f m -> preserves f c -> preserves f (finally m c).
Proof.
  intros Hm Hc w. unfold finally.
  specialize (Hm w). destruct (m w) as [r w1]. simpl in Hm.
  specialize (Hc w1). destruct (c w1) as [[u|e] w2]; simpl in *; congruence.
Qed.

Lemma preserves_detached {X} (f : World -> X) (m : M unit) :
  preserves f m -> preserves f (detached m).
Proof. intros Hm w. apply Hm. Qed.

Lemma preserves_forEach {X} (f : World -> X) (g : Item -> M unit) l :
  (forall x, preserves f (g x)) -> preserves f (forEach g l).
Proof.
  intros Hg. induction l as [|x l IH]; simpl.
  - apply preserves_ret.
  - apply preserves_bind; auto.
Qed.

#[export] Hint Resolve preserves_ret preserves_throw preserves_lift
  preserves_gets preserves_bind preserves_if preserves_try_catch
  preserves_finally preserves_detached preserves_forEach : frame.

(** Writes to the gallery, the clock and the console leave the cache, the
    button and the date inputs alone. *)
Ltac frame_modify :=
  apply preserves_modify; intros [? ? ? ? ? ? ? ?]; reflexivity.

Ltac frame :=
  repeat match goal with
    | |- preserves _ (modify _) => frame_modify
    | |- preserves _ (bind _ _) => apply preserves_bind
    | |- preserves _ (forEach _ _) => apply preserves_forEach
    | |- preserves _ (detached _) => apply preserves_detached
    | |- preserves _ (try_catch _ _) => apply preserves_try_catch
    | |- preserves _ (finally _ _) => apply preserves_finally
    | |- preserves _ (if ?x then _ else _) => destruct x
    | |- preserves _ (match ?x with Some _ => _ | None => _ end) =>
        destruct x
    | |- preserves _ (let (_, _) := ?x in _) => destruct x
    | |- forall x, @?P x => intro
    | |- _ => progress cbv beta
    | |- _ => solve [auto with frame]
    end.

Section Frame.

Variable host : Host.

Lemma fade_placeholder_cache : preserves lastFetchedItems fade_placeholder.
Proof. unfold fade_placeholder, classList_add_fade_out, sleep. frame. Qed.

Lemma wait_minimum_cache start : preserves lastFetchedItems (wait_minimum start).
Proof. unfold wait_minimum, sleep. frame. Qed.

Lemma buildGallery_cache items :
  preserves lastFetchedItems (buildGallery host items).
Proof. unfold buildGallery, set_innerHTML, appendChild. frame. Qed.

Lemma transitionToGallery_cache items :
  preserves lastFetchedItems (transitionToGallery host items).
Proof.
  unfold transitionToGallery.
  apply preserves_bind; [apply fade_placeholder_cache|].
  intros _. apply buildGallery_cache.
Qed.

Lemma applyFilter_cache : preserves lastFetchedItems (applyFilter host).
Proof.
  pose proof transitionToGallery_cache.
  unfold applyFilter, set_innerHTML. frame.
Qed.

End Frame.

(** ** The renderer *)

Section Renderer.

Variable host : Host.

Lemma createCard_Obj r : createCard host (Obj r) = Ok (card_of r).
Proof. reflexivity. Qed.

(** The card loop appends one card per object, in order. *)
Lemma forEach_cards rs : forall w,
  forEach (fun item =>
             card <- lift (createCard host item) ;;
             appendChild (GalleryItem card))
          (map Obj rs) w
  = (Ok tt,
     with_gallery
       (mkGallery (children (gallery w)
                   ++ map (fun r => GalleryItem (card_of r)) rs)
                  (aria_busy (gallery w))) w).
Proof.
  induction rs as [|r rs IH]; intros w.
  - simpl. unfold ret. rewrite app_nil_r, gallery_eta, with_gallery_same.
    reflexivity.
  - simpl. unfold bind at 1. unfold bind at 1. unfold lift, appendChild, modify.
    rewrite IH. simpl. rewrite <- app_assoc. reflexivity.
Qed.

(** [buildGallery] on an array of objects: it never throws, and it replaces
    the children of the gallery and nothing else. *)
Lemma buildGallery_Obj rs w :
  buildGallery host (map Obj rs) w
  = (Ok tt,
     with_gallery (mkGallery (gallery_view (filter is_image rs))
                             (aria_busy (gallery w))) w).
Proof.
  unfold buildGallery.
  erewrite bind_Ok
    by (unfold lift; rewrite (js_filter_Obj _ is_image) by apply isImage_Obj;
        reflexivity).
  destruct (filter is_image rs) as [|r images].
  - reflexivity.
  - change (List.length (map Obj (r :: images)) =? 0)%nat with false.
    cbv iota. unfold bind, set_innerHTML, modify.
    rewrite forEach_cards. reflexivity.
Qed.

(** [buildGallery] on any array: a [null] element makes the image filter
    throw before the gallery is touched. *)
Lemma buildGallery_cases items w :
  (exists e, buildGallery host items w = (Throw e, w))
  \/ (exists rs, items = map Obj rs).
Proof.
  destruct (js_filter (isImage host) items) as [images|e] eqn:E.
  - right. eapply js_filter_Ok_objects; [apply isImage_Null | exact E].
  - left. exists e. unfold buildGallery, bind, lift. rewrite E. reflexivity.
Qed.

Lemma fade_placeholder_run w : fade_placeholder w = (Ok tt, faded w).
Proof.
  unfold fade_placeholder, faded, bind, gets.
  destruct (has_placeholder (children (gallery w))); reflexivity.
Qed.

Lemma faded_busy w : aria_busy (gallery (faded w)) = aria_busy (gallery w).
Proof.
  unfold faded. destruct (has_placeholder (children (gallery w))); reflexivity.
Qed.

Lemma transitionToGallery_Obj rs w :
  transitionToGallery host (map Obj rs) w
  = (Ok tt,
     with_gallery (mkGallery (gallery_view (filter is_image rs))
                             (aria_busy (gallery w))) (faded w)).
Proof.
  unfold transitionToGallery.
  erewrite bind_Ok by apply fade_placeholder_run.
  rewrite buildGallery_Obj, faded_busy. reflexivity.
Qed.

(** Every card of a rendered view was built from an image record. *)
Lemma gallery_view_shown images : shown (gallery_view images) = images.
Proof.
  destruct images as [|r images]; [reflexivity|].
  unfold gallery_view, shown, cards.
  induction (r :: images) as [|x l IH]; [reflexivity|].
  simpl. f_equal. exact IH.
Qed.

End Renderer.

(** ** The filter handler *)

Section FilterHandler.

Variable host : Host.

(** The handler once the cache and the two inputs are read. *)
Lemma applyFilter_cached items w :
  lastFetchedItems w = Some items ->
  applyFilter host w
  = (if negb (str_truthy (startDateInput w))
        && negb (str_truthy (endDateInput w))
     then
       images <- lift (js_filter (isImage host) items) ;;
       detached (transitionToGallery host images)
     else
       let (start, end_) :=
         dateBounds host (startDateInput w) (endDateInput w) in
       filtered <- lift (js_filter (keepItem host start end_) items) ;;
       if (List.length filtered =? 0)%nat
       then set_innerHTML [Placeholder false false msg_no_match]
       else detached (transitionToGallery host filtered)) w.
Proof.
  intros Hc. unfold applyFilter. unfold bind at 1. unfold gets at 1.
  rewrite Hc. reflexivity.
Qed.

(** [applyFilter] with a cache of objects: it returns normally, and only
    the gallery children and, through the fade, the clock change. *)
Lemma applyFilter_Obj rs w :
  lastFetchedItems w = Some (map Obj rs) ->
  fst (applyFilter host w) = Ok tt
  /\ gallery (snd (applyFilter host w))
     = mkGallery (filter_view (startDateInput w) (endDateInput w)
                    (selected host (startDateInput w) (endDateInput w) rs))
                 (aria_busy (gallery w)).
Proof.
  intros Hc. rewrite (applyFilter_cached _ _ Hc).
  set (a := startDateInput w). set (b := endDateInput w).
  pose proof (filter_is_image_selected host a b rs) as Himg.
  unfold filter_view, selected in *.
  destruct (bounds_given a b) eqn:G.
  - rewrite (bounds_given_true _ _ G).
    destruct (dateBounds host a b) as [s e]. simpl fst in *. simpl snd in *.
    unfold bind, lift.
    rewrite (js_filter_Obj _ (keep host s e)) by apply keepItem_Obj.
    destruct (filter (keep host s e) rs) as [|r sel] eqn:F.
    + split; reflexivity.
    + change (List.length (map Obj (r :: sel)) =? 0)%nat with false.
      cbv iota. unfold detached.
      rewrite transitionToGallery_Obj, Himg. split; reflexivity.
  - rewrite (bounds_given_false _ _ G).
    unfold bind, lift.
    rewrite (js_filter_Obj _ is_image) by apply isImage_Obj.
    unfold detached. rewrite transitionToGallery_Obj, Himg.
    split; reflexivity.
Qed.

(** [applyFilter] follows [filter_engine]: when the engine throws, so does
    the handler, with the page untouched. *)
Lemma applyFilter_Throw items w e :
  lastFetchedItems w = Some items ->
  filter_engine host items (startDateInput w) (endDateInput w) = Throw e ->
  applyFilter host w = (Throw e, w).
Proof.
  intros Hc. rewrite (applyFilter_cached _ _ Hc). unfold filter_engine.
  destruct (negb (str_truthy (startDateInput w))
            && negb (str_truthy (endDateInput w))).
  - intros E. unfold bind, lift. rewrite E. reflexivity.
  - destruct (dateBounds host (startDateInput w) (endDateInput w)) as [s e'].
    intros E. unfold bind, lift. rewrite E. reflexivity.
Qed.

(** Without a cache the handler only writes the prompt. *)
Lemma applyFilter_no_cache w :
  lastFetchedItems w = None ->
  applyFilter host w
  = (Ok tt,
     with_gallery (mkGallery [Placeholder false false msg_no_data]
                             (aria_busy (gallery w))) w).
Proof.
  intros Hc. unfold applyFilter, bind, gets. rewrite Hc. reflexivity.
Qed.

End FilterHandler.

(** ** The fetch handler *)

Lemma finally_snd {A X} (f : World -> X) (m : M A) c w :
  preserves f c -> f (snd (finally m c w)) = f (snd (m w)).
Proof.
  intros Hc. unfold finally. destruct (m w) as [r w1]. simpl.
  specialize (Hc w1). destruct (c w1) as [[u|e] w2]; exact Hc.
Qed.

Lemma try_catch_snd {A X} (f : World -> X) (m : M A) h w :
  (forall e, preserves f (h e)) ->
  f (snd (try_catch m h w)) = f (snd (m w)).
Proof.
  intros Hh. unfold try_catch. destruct (m w) as [[a|e] w1]; simpl.
  - reflexivity.
  - apply Hh.
Qed.

Lemma is_image_media_type r :
  is_image r = true <-> media_type r = Some "image".
Proof.
  unfold is_image, strict_eq. destruct (media_type r) as [m|].
  - rewrite String.eqb_eq. split; congruence.
  - split; discriminate.
Qed.

Lemma gallery_view_image_nodes images :
  Forall (fun r => is_image r = true) images ->
  Forall image_node (gallery_view images).
Proof.
  intros H. destruct images as [|r images].
  - repeat constructor.
  - unfold gallery_view. apply Forall_map.
    eapply Forall_impl; [|exact H].
    intros x Hx. apply is_image_media_type. exact Hx.
Qed.

Lemma filter_view_image_nodes a b sel :
  Forall (fun r => is_image r = true) sel ->
  Forall image_node (filter_view a b sel).
Proof.
  intros H. unfold filter_view.
  destruct (bounds_given a b); [destruct sel|];
    try apply gallery_view_image_nodes; auto.
  repeat constructor.
Qed.

Lemma filter_images {A} (p : A -> bool) l : Forall (fun x => p x = true) (filter p l).
Proof. apply Forall_forall. intros x Hx. apply filter_In in Hx. tauto. Qed.

Section FetchHandler.

Variable host : Host.

Lemma wait_minimum_run start w :
  exists t, wait_minimum start w = (Ok tt, with_now t w).
Proof.
  unfold wait_minimum, bind, gets, sleep, modify.
  destruct (MIN_LOADING_MS - (now w - start) >? 0).
  - eexists. reflexivity.
  - exists (now w). destruct w. reflexivity.
Qed.

Lemma catch_block_cache start err :
  preserves lastFetchedItems (catch_block start err).
Proof.
  unfold catch_block, wait_minimum, fade_placeholder, classList_add_fade_out,
    sleep, set_innerHTML.
  frame.
Qed.

Lemma finally_block_cache label :
  preserves lastFetchedItems (finally_block label).
Proof. unfold finally_block, set_button, set_aria_busy. frame. Qed.

Lemma finally_block_nodes label : preserves nodes (finally_block label).
Proof. unfold finally_block, set_button, set_aria_busy. frame. Qed.

(** The [catch] block never throws and leaves the error message in the
    gallery. *)
Lemma catch_block_run start err w :
  fst (catch_block start err w) = Ok tt
  /\ nodes (snd (catch_block start err w))
     = [Placeholder false false (msg_error err)].
Proof.
  unfold catch_block.
  destruct (wait_minimum_run start w) as [t Ht].
  erewrite bind_Ok by exact Ht.
  erewrite bind_Ok by apply fade_placeholder_run.
  split; reflexivity.
Qed.

(** The [finally] block never throws; it writes the button and clears
    [aria-busy], nothing else. *)
Lemma finally_block_run label w :
  finally_block label w
  = (Ok tt,
     with_gallery (mkGallery (children (gallery w)) None)
       (with_getImageBtn (mkButton false (restored_label label)) w)).
Proof. reflexivity. Qed.

(** When the [try] block completes, the cache holds an array of objects and
    the gallery shows its images. *)
Lemma try_block_Ok net start w w' :
  try_block host net start w = (Ok tt, w') ->
  exists rs,
    lastFetchedItems w' = Some (map Obj rs)
    /\ nodes w' = gallery_view (filter is_image rs).
Proof.
  unfold try_block. intros H.
  apply bind_Ok_inv in H as (_ & w1 & _ & H).
  apply bind_Ok_inv in H as (_ & w2 & _ & H).
  apply bind_Ok_inv in H as (data & w3 & _ & H).
  apply bind_Ok_inv in H as (items & w4 & _ & H).
  apply bind_Ok_inv in H as ([] & w5 & H5 & H).
  apply bind_Ok_inv in H as ([] & w6 & H6 & H).
  apply bind_Ok_inv in H as ([] & w7 & H7 & H).
  assert (Hc : lastFetchedItems w7 = Some items).
  { pose proof (fade_placeholder_cache w6) as E7. rewrite H7 in E7.
    pose proof (wait_minimum_cache start w5) as E6. rewrite H6 in E6.
    simpl in E6, E7. rewrite E7, E6.
    unfold modify in H5. inversion H5. reflexivity. }
  destruct (buildGallery_cases host items w7) as [[e He] | [rs ->]].
  - rewrite He in H. discriminate.
  - exists rs. rewrite buildGallery_Obj in H. inversion H. subst w'.
    split; [exact Hc | reflexivity].
Qed.

(** The handler as the three blocks, once the label and the clock are
    read. *)
Lemma fetchAndShow_blocks net w :
  fetchAndShow host net w
  = finally (try_catch (try_block host net (now w)) (catch_block (now w)))
            (finally_block (textContent (getImageBtn w))) w.
Proof. reflexivity. Qed.

(** The handler never throws, whatever the network does. *)
Lemma fetchAndShow_Ok net w : fst (fetchAndShow host net w) = Ok tt.
Proof.
  rewrite fetchAndShow_blocks. unfold finally, try_catch.
  destruct (try_block host net (now w) w) as [[[]|e] w1]; simpl.
  - reflexivity.
  - destruct (catch_block_run (now w) e w1) as [Hok _].
    destruct (catch_block (now w) e w1) as [r w2]. simpl in *.
    exact Hok.
Qed.

(** What the gallery holds after a fetch: the error message, or the view of
    the images of the cached objects. *)
Lemma fetchAndShow_nodes net w :
  let w' := snd (fetchAndShow host net w) in
  (exists err, nodes w' = [Placeholder false false (msg_error err)])
  \/ (exists rs, lastFetchedItems w' = Some (map Obj rs)
                 /\ nodes w' = gallery_view (filter is_image rs)).
Proof.
  intros w'. subst w'. rewrite fetchAndShow_blocks.
  rewrite (finally_snd nodes) by apply finally_block_nodes.
  rewrite (finally_snd lastFetchedItems) by apply finally_block_cache.
  unfold try_catch.
  destruct (try_block host net (now w) w) as [[[]|e] w1] eqn:T.
  - right. simpl. eapply try_block_Ok. exact T.
  - left. exists e. apply catch_block_run.
Qed.

(** A body that normalises is cached, whether or not it renders. *)
Lemma fetchAndShow_caches lat data items w :
  normalize host data = Ok items ->
  lastFetchedItems
    (snd (fetchAndShow host (mkFetch lat (Responded true (Ok data))) w))
  = Some items.
Proof.
  intros Hn. rewrite fetchAndShow_blocks.
  rewrite (finally_snd lastFetchedItems) by apply finally_block_cache.
  rewrite (try_catch_snd lastFetchedItems) by apply catch_block_cache.
  unfold try_block.
  erewrite bind_Ok by reflexivity.
  erewrite bind_Ok by reflexivity.
  erewrite bind_Ok by reflexivity.
  erewrite bind_Ok by (unfold lift; rewrite Hn; reflexivity).
  erewrite bind_Ok by reflexivity.
  assert (Hrest : preserves lastFetchedItems
            (wait_minimum (now w) ;; fade_placeholder ;;
             buildGallery host items)).
  { apply preserves_bind; [apply wait_minimum_cache|]. intros _.
    apply preserves_bind; [apply fade_placeholder_cache|]. intros _.
    apply buildGallery_cache. }
  rewrite Hrest. reflexivity.
Qed.

End FetchHandler.

Lemma Ok_true_iff (b : bool) : Ok b = Ok true <-> b = true.
Proof. split; [intros [= ->] | intros ->]; reflexivity. Qed.

(** ** The bounds *)

Section Bounds.

Variable host : Host.

(** Two valid dates given in the wrong order reach the callback in the
    right one, and so do the same two given in the right order. *)
Lemma dateBounds_swap a b ta tb :
  valid_date host a ta -> valid_date host b tb -> tb < ta ->
  dateBounds host a b = (Some (Some tb), Some (Some ta))
  /\ dateBounds host b a = (Some (Some tb), Some (Some ta)).
Proof.
  intros [Ha Pa] [Hb Pb] Hlt. unfold dateBounds.
  rewrite Ha, Hb, Pa, Pb. unfold date_gt, date_lt.
  replace (tb <? ta) with true by (symmetry; apply Z.ltb_lt; lia).
  replace (ta <? tb) with false by (symmetry; apply Z.ltb_ge; lia).
  split; reflexivity.
Qed.

(** The callback's answer on an image record with a valid date, for bounds
    that are valid dates where present. *)
Lemma keep_inclusive_range r (lo hi : option Z) d :
  media_type r = Some "image" ->
  new_Date host (date r) = Some d ->
  keep host (option_map Some lo) (option_map Some hi) r = true
  <-> (forall s, lo = Some s -> s <= d) /\ (forall e, hi = Some e -> d <= e).
Proof.
  intros Hm Hd. unfold keep.
  rewrite (proj2 (is_image_media_type r) Hm), Hd.
  rewrite !andb_true_iff, !negb_true_iff.
  destruct lo as [s|], hi as [e|]; simpl; unfold date_gt, date_lt;
    rewrite ?Z.ltb_ge;
    (split;
     [ intros [[_ H1] H2]; split; intros ? E; inversion E; subst; assumption
     | intros [H1 H2]; repeat split; auto ]).
Qed.

(** An image record whose date the host cannot read passes every bound:
    each comparison with an Invalid Date is false. *)
Lemma keep_invalid_date r start end_ :
  media_type r = Some "image" ->
  new_Date host (date r) = None ->
  keep host start end_ r = true.
Proof.
  intros Hm Hd. unfold keep.
  rewrite (proj2 (is_image_media_type r) Hm), Hd.
  destruct start as [[s|]|], end_ as [[e|]|]; reflexivity.
Qed.

Lemma In_map_Obj r l : In (Obj r) (map Obj l) <-> In r l.
Proof.
  rewrite in_map_iff. split.
  - intros (x & [= ->] & Hx). exact Hx.
  - intros Hr. exists r. auto.
Qed.

Lemma bounds_given_comm a b : bounds_given a b = bounds_given b a.
Proof. apply orb_comm. Qed.

Lemma shown_image_nodes l :
  Forall image_node l ->
  Forall (fun r => media_type r = Some "image") (shown l).
Proof.
  unfold shown, cards. induction 1 as [|n l Hn _ IH]; [constructor|].
  destruct n as [sp fo t | c]; simpl; [exact IH|].
  constructor; [exact Hn | exact IH].
Qed.

(** The [try] block on a body the host could parse, up to the point where
    the body is normalised. *)
Lemma try_block_parsed lat data start w :
  try_block host (mkFetch lat (Responded true (Ok data))) start w
  = (items <- lift (normalize host data) ;;
     modify (with_lastFetchedItems (Some items)) ;;
     wait_minimum start ;;
     fade_placeholder ;;
     buildGallery host items)
      (with_now (now w + lat)
         (with_gallery (mkGallery [Placeholder true false msg_loading]
                                  (Some "true"))
            (with_getImageBtn (mkButton true "Loading…") w))).
Proof. reflexivity. Qed.

(** The handler reads the body only through [normalize]. *)
Lemma fetchAndShow_normalize lat d1 d2 w :
  normalize host d1 = normalize host d2 ->
  fetchAndShow host (mkFetch lat (Responded true (Ok d1))) w
  = fetchAndShow host (mkFetch lat (Responded true (Ok d2))) w.
Proof.
  intros H. rewrite !fetchAndShow_blocks. unfold finally, try_catch.
  rewrite !try_block_parsed. unfold bind at 1 3, lift. rewrite H.
  reflexivity.
Qed.

End Bounds.

(** ** The overlay *)

(** Closing the overlay hides it and drops the image reference; the texts
    stay. *)
Lemma closeModal_hides w :
  let m := modal (snd (closeModal w)) in
  fst (closeModal w) = Ok tt
  /\ show m = false
  /\ aria_hidden m = Some "true"
  /\ modalImage_src m = EmptyString
  /\ modalTitle m = modalTitle (modal w).
Proof. repeat split. Qed.

(** Clicking the card built for a record opens the overlay on that record. *)
Lemma click_opens_record r w : click (card_of r) w = openModal r w.
Proof. reflexivity. Qed.

(** Opening and closing write the overlay only. *)
Lemma openModal_gallery item : preserves gallery (openModal item).
Proof. unfold openModal. frame. Qed.

Lemma closeModal_gallery : preserves gallery closeModal.
Proof. unfold closeModal. frame. Qed.

(** A label that is not empty is the label put back. *)
Lemma restored_label_nonempty l : l <> EmptyString -> restored_label l = l.
Proof.
  intros H. unfold restored_label. rewrite (str_truthy_true l H). reflexivity.
Qed.

(** * The claims *)

(** C1, as the script has it: whatever the network does, and whatever the
    page was, [fetchAndShow] returns without throwing, the button is enabled
    again, the gallery is no longer marked busy, and the button carries the
    label it had before the call when that label is not empty; an empty
    label is replaced by "Fetch Space Images". *)
Theorem fetchAndShow_releases_ui (host : Host) (net : Fetch) (w : World) :
  let w' := snd (fetchAndShow host net w) in
  fst (fetchAndShow host net w) = Ok tt
  /\ disabled (getImageBtn w') = false
  /\ textContent (getImageBtn w')
     = (if str_truthy (textContent (getImageBtn w))
        then textContent (getImageBtn w)
        else "Fetch Space Images")
  /\ aria_busy (gallery w') = None.
Proof.
  intros w'. split; [apply fetchAndShow_Ok|].
  subst w'. rewrite fetchAndShow_blocks. unfold finally.
  destruct (try_catch _ _ w) as [r w1].
  rewrite finally_block_run. simpl. auto.
Qed.

(** C1, counterexample: on a page whose button has an empty label, a failed
    fetch does not put the original label back. *)
Lemma fetchAndShow_label_not_restored :
  let w' := snd (fetchAndShow reference_host failing_fetch unlabelled_page) in
  ~ (disabled (getImageBtn w') = false
     /\ textContent (getImageBtn w') = textContent (getImageBtn unlabelled_page)
     /\ aria_busy (gallery w') = None).
Proof.
  intros w' (_ & H & _). vm_compute in H. discriminate H.
Qed.

(** C2: with both date inputs empty, the filter retains exactly the cached
    records whose media type is "image", in their order, and these are the
    records the gallery then shows. *)
Theorem applyFilter_no_bounds (host : Host) (rs : list Apod) (w : World) :
  lastFetchedItems w = Some (map Obj rs) ->
  startDateInput w = EmptyString ->
  endDateInput w = EmptyString ->
  filter_engine host (map Obj rs) EmptyString EmptyString
  = Ok (map Obj (filter (fun r => strict_eq (media_type r) "image") rs))
  /\ fst (applyFilter host w) = Ok tt
  /\ shown (nodes (snd (applyFilter host w)))
     = filter (fun r => strict_eq (media_type r) "image") rs.
Proof.
  intros Hc Ha Hb. split; [|split].
  - rewrite filter_engine_Obj. reflexivity.
  - apply (applyFilter_Obj host rs w Hc).
  - destruct (applyFilter_Obj host rs w Hc) as [_ Hg].
    unfold nodes. rewrite Hg, Ha, Hb. simpl. apply gallery_view_shown.
Qed.

Lemma applyFilter_no_bounds_witness :
  let w := page sample_items EmptyString EmptyString in
  lastFetchedItems w = Some (map Obj [record_A; record_B; record_C])
  /\ startDateInput w = EmptyString
  /\ endDateInput w = EmptyString
  /\ shown (nodes (snd (applyFilter reference_host w)))
     = [record_A; record_C].
Proof.
  intros w. do 3 (split; [reflexivity|]).
  exact (proj2 (proj2 (applyFilter_no_bounds reference_host
                         [record_A; record_B; record_C] w
                         eq_refl eq_refl eq_refl))).
Defined.

(** C3: for two valid dates [a] and [b] with [a] after [b], the bounds
    reach the filter callback swapped, the smaller one as lower bound; the
    filter retains the same records for (a, b) as for (b, a), and the gallery
    ends up the same. *)
Theorem applyFilter_swapped_bounds
    (host : Host) (items : list Item) (a b : string) (ta tb : Z) (w : World) :
  valid_date host a ta ->
  valid_date host b tb ->
  tb < ta ->
  lastFetchedItems w = Some items ->
  dateBounds host a b = (Some (Some tb), Some (Some ta))
  /\ filter_engine host items a b = filter_engine host items b a
  /\ gallery (snd (applyFilter host (with_inputs a b w)))
     = gallery (snd (applyFilter host (with_inputs b a w))).
Proof.
  intros Va Vb Hlt Hc.
  destruct (dateBounds_swap host a b ta tb Va Vb Hlt) as [Dab Dba].
  assert (He : filter_engine host items a b = filter_engine host items b a).
  { unfold filter_engine. rewrite Dab, Dba.
    destruct Va as [Ha _], Vb as [Hb _]. rewrite Ha, Hb. reflexivity. }
  split; [exact Dab | split; [exact He|]].
  destruct (filter_engine host items a b) as [sel|e] eqn:E.
  - destruct (filter_engine_Ok_objects host items a b sel E) as [rs ->].
    destruct (applyFilter_Obj host rs (with_inputs a b w) Hc) as [_ ->].
    destruct (applyFilter_Obj host rs (with_inputs b a w) Hc) as [_ ->].
    simpl. unfold selected, filter_view.
    rewrite (bounds_given_comm b a), Dab, Dba. reflexivity.
  - rewrite (applyFilter_Throw host items (with_inputs a b w) e Hc E).
    symmetry in He.
    rewrite (applyFilter_Throw host items (with_inputs b a w) e Hc He).
    reflexivity.
Qed.

Lemma applyFilter_swapped_bounds_witness :
  let w := page sample_items EmptyString EmptyString in
  valid_date reference_host "2024-01-10" 1704844800000
  /\ valid_date reference_host "2024-01-02" 1704153600000
  /\ 1704153600000 < 1704844800000
  /\ lastFetchedItems w = Some sample_items
  /\ filter_engine reference_host sample_items "2024-01-10" "2024-01-02"
     = filter_engine reference_host sample_items "2024-01-02" "2024-01-10"
  /\ gallery (snd (applyFilter reference_host
                     (with_inputs "2024-01-10" "2024-01-02" w)))
     = gallery (snd (applyFilter reference_host
                       (with_inputs "2024-01-02" "2024-01-10" w))).
Proof.
  intros w.
  assert (Va : valid_date reference_host "2024-01-10" 1704844800000)
    by (split; reflexivity).
  assert (Vb : valid_date reference_host "2024-01-02" 1704153600000)
    by (split; reflexivity).
  assert (Hlt : 1704153600000 < 1704844800000) by reflexivity.
  assert (Hc : lastFetchedItems w = Some sample_items) by reflexivity.
  repeat (split; [assumption|]).
  exact (proj2 (applyFilter_swapped_bounds reference_host sample_items
                  "2024-01-10" "2024-01-02" _ _ w Va Vb Hlt Hc)).
Defined.

(** The filter callback on an image record with a valid date, [lo] and [hi]
    being the time values of the bounds it receives: the callback keeps the
    record, and [js_filter] with it retains the record from any array it is
    in, exactly when its date is within the bounds, both ends included. *)
Lemma keepItem_inclusive_range
    (host : Host) (rs : list Apod) (r : Apod) (lo hi : option Z) (d : Z) :
  media_type r = Some "image" ->
  new_Date host (date r) = Some d ->
  In r rs ->
  let start := option_map Some lo in
  let end_ := option_map Some hi in
  let in_range :=
    (forall s, lo = Some s -> s <= d) /\ (forall e, hi = Some e -> d <= e) in
  (keepItem host start end_ (Obj r) = Ok true <-> in_range)
  /\ exists kept,
       js_filter (keepItem host start end_) (map Obj rs) = Ok kept
       /\ (In (Obj r) kept <-> in_range).
Proof.
  intros Hm Hd Hin start end_ in_range. subst start end_ in_range.
  pose proof (keep_inclusive_range host r lo hi d Hm Hd) as Hk.
  split.
  - rewrite keepItem_Obj, Ok_true_iff. exact Hk.
  - eexists. split.
    + apply js_filter_Obj. apply keepItem_Obj.
    + rewrite In_map_Obj, filter_In, Hk. tauto.
Qed.

(** C5: on a cache of records the filter never throws, whatever the two
    inputs hold: the engine returns a sequence, the handler returns normally
    and the transition it starts without awaiting does not throw either.
    When a bound is given and nothing is retained, the gallery holds the
    "No images match that date range." placeholder. *)
Theorem applyFilter_never_throws (host : Host) (rs : list Apod) (w : World) :
  lastFetchedItems w = Some (map Obj rs) ->
  fst (applyFilter host w) = Ok tt
  /\ exists sel,
       filter_engine host (map Obj rs) (startDateInput w) (endDateInput w)
       = Ok sel
       /\ (forall w0, fst (transitionToGallery host sel w0) = Ok tt)
       /\ (sel = [] ->
           bounds_given (startDateInput w) (endDateInput w) = true ->
           nodes (snd (applyFilter host w))
           = [Placeholder false false "No images match that date range."]).
Proof.
  intros Hc. destruct (applyFilter_Obj host rs w Hc) as [Hok Hg].
  split; [exact Hok|].
  exists (map Obj (selected host (startDateInput w) (endDateInput w) rs)).
  split; [apply filter_engine_Obj|]. split.
  - intros w0. rewrite transitionToGallery_Obj. reflexivity.
  - intros Hnil Hb. unfold nodes. rewrite Hg. simpl.
    apply map_eq_nil in Hnil. unfold filter_view. rewrite Hb, Hnil.
    reflexivity.
Qed.

Lemma applyFilter_never_throws_witness :
  let w := page [Obj record_A; Obj record_B] "2024-01-02" "2024-01-10" in
  lastFetchedItems w = Some (map Obj [record_A; record_B])
  /\ fst (applyFilter reference_host w) = Ok tt
  /\ nodes (snd (applyFilter reference_host w))
     = [Placeholder false false "No images match that date range."].
Proof.
  intros w. split; [reflexivity|].
  destruct (applyFilter_never_throws reference_host [record_A; record_B] w
              eq_refl) as (Hok & sel & He & _ & Hnil).
  split; [exact Hok|].
  apply Hnil; [|reflexivity].
  vm_compute in He. injection He as <-. reflexivity.
Defined.


(** C7, as the script has it: [openModal] shows the record's hdurl when it is
    present and not empty, and otherwise the url, or nothing when the url is
    missing too; it shows title, date and explanation, each empty when
    missing, and marks the overlay shown and not hidden from assistive
    technology. *)
Theorem openModal_displays (item : Apod) (w : World) :
  let m := modal (snd (openModal item w)) in
  fst (openModal item w) = Ok tt
  /\ modalImage_src m
     = match hdurl item with
       | Some h => if str_truthy h then h else or_empty (url item)
       | None => or_empty (url item)
       end
  /\ modalTitle m = or_empty (title item)
  /\ modalDate m = or_empty (date item)
  /\ modalExplanation m = or_empty (explanation item)
  /\ show m = true
  /\ aria_hidden m = Some "false".
Proof.
  unfold openModal, modify. simpl.
  repeat split; try apply js_or_empty.
  rewrite js_or_empty. unfold js_or.
  destruct (hdurl item) as [h|]; simpl;
    [destruct (str_truthy h)|]; reflexivity.
Qed.

(** C7, counterexample: a record whose hdurl is present but empty is shown
    with its url. *)
Lemma openModal_empty_hdurl :
  exists h,
    hdurl record_empty_hd = Some h
    /\ modalImage_src (modal (snd (openModal record_empty_hd initial_page)))
       <> h.
Proof.
  exists EmptyString. split; [reflexivity|].
  vm_compute. discriminate.
Qed.

(** C8: the fetch handler accepts both shapes of body.  An array becomes the
    cached record sequence as it is; a key-value mapping is replaced by its
    values, in the order of the mapping, and from there on is treated as
    the array of those values. *)
Theorem fetchAndShow_accepts_array_or_mapping
    (host : Host) (lat : Z) (elems : list Item) (props : list (string * Item))
    (w : World) :
  let run data :=
    fetchAndShow host (mkFetch lat (Responded true (Ok data))) w in
  normalize host (PArray elems) = Ok elems
  /\ normalize host (PObject props) = Ok (map snd props)
  /\ lastFetchedItems (snd (run (PArray elems))) = Some elems
  /\ lastFetchedItems (snd (run (PObject props))) = Some (map snd props)
  /\ run (PObject props) = run (PArray (map snd props)).
Proof.
  intros run. subst run.
  split; [reflexivity|]. split; [reflexivity|].
  split; [|split].
  - apply fetchAndShow_caches. reflexivity.
  - apply fetchAndShow_caches. reflexivity.
  - apply fetchAndShow_normalize. reflexivity.
Qed.

(** C9: no record whose media type is not "image" is on show after a
    rendering path has run: not after [buildGallery] on any records, not
    after [applyFilter] on any cached records with any two input values,
    empty or not, and not after [fetchAndShow], whatever the network
    delivered. *)
Theorem only_images_rendered
    (host : Host) (rs : list Apod) (startVal endVal : string) (net : Fetch)
    (w : World) :
  let image r := media_type r = Some "image" in
  Forall image (shown (nodes (snd (buildGallery host (map Obj rs) w))))
  /\ Forall image
       (shown (nodes (snd (applyFilter host
                             (with_inputs startVal endVal
                                (with_lastFetchedItems (Some (map Obj rs))
                                   w))))))
  /\ Forall image (shown (nodes (snd (fetchAndShow host net w)))).
Proof.
  intros image. subst image.
  split; [|split]; apply shown_image_nodes.
  - rewrite buildGallery_Obj. unfold nodes. simpl.
    apply gallery_view_image_nodes, filter_images.
  - edestruct (applyFilter_Obj host rs) as [_ Hg]; [|unfold nodes; rewrite Hg].
    + reflexivity.
    + simpl. apply filter_view_image_nodes, selected_images.
  - destruct (fetchAndShow_nodes host net w) as [[err ->] | (rs' & _ & ->)].
    + repeat constructor.
    + apply gallery_view_image_nodes, filter_images.
Qed.

(** C10: while the cache is still empty, [applyFilter] returns normally and
    changes nothing but the children of the gallery, which become the
    prompt to fetch first; the cache stays empty. *)
Theorem applyFilter_before_fetch (host : Host) (w : World) :
  lastFetchedItems w = None ->
  applyFilter host w
  = (Ok tt,
     with_gallery (mkGallery [Placeholder false false msg_no_data]
                             (aria_busy (gallery w))) w)
  /\ lastFetchedItems (snd (applyFilter host w)) = None.
Proof.
  intros Hc. rewrite (applyFilter_no_cache host w Hc).
  split; [reflexivity | exact Hc].
Qed.

Lemma applyFilter_before_fetch_witness :
  lastFetchedItems initial_page = None
  /\ nodes (snd (applyFilter reference_host initial_page))
     = [Placeholder false false msg_no_data]
  /\ lastFetchedItems (snd (applyFilter reference_host initial_page)) = None.
Proof.
  split; [reflexivity|].
  destruct (applyFilter_before_fetch reference_host initial_page eq_refl)
    as [Hrun Hcache].
  split; [rewrite Hrun; reflexivity | exact Hcache].
Defined.

(** * Scenarios of the specification *)

(** An image and a video: the gallery shows one card, for the image. *)
Example scenario_render_one_card :
  map caption
      (cards (nodes (snd (buildGallery reference_host
                            [Obj record_A; Obj record_B] initial_page))))
  = ["A — 2024-01-01"].
Proof. reflexivity. Qed.

(** Filtering the same pair from 2024-01-02 to 2024-01-10 retains nothing. *)
Example scenario_filter_no_match :
  filter_engine reference_host [Obj record_A; Obj record_B]
                "2024-01-02" "2024-01-10"
  = Ok [].
Proof. reflexivity. Qed.

(** A failed fetch: the error text is shown, the button is enabled with its
    label, and the busy mark is gone. *)
Example scenario_fetch_fails :
  let w := snd (fetchAndShow reference_host failing_fetch initial_page) in
  nodes w = [Placeholder false false "Error loading images: Failed to fetch"]
  /\ getImageBtn w = mkButton false "Fetch Space Images"
  /\ aria_busy (gallery w) = None.
Proof. repeat split. Qed.

(** A record without hdurl is shown with its url. *)
Example scenario_overlay_fallback :
  modalImage_src (modal (snd (openModal record_A initial_page))) = "a.jpg".
Proof. reflexivity. Qed.

(** A [null] among the items: nothing is rendered, the error is shown, and
    the items stay cached, so a later filter throws. *)
Example scenario_null_item :
  let w := snd (fetchAndShow reference_host
                  (mkFetch 100 (Responded true
                                  (Ok (PArray [Obj record_A; Null]))))
                  initial_page) in
  cards (nodes w) = []
  /\ lastFetchedItems w = Some [Obj record_A; Null]
  /\ exists e, fst (applyFilter reference_host w) = Throw e.
Proof. repeat split. eexists. reflexivity. Qed.

(** * Further properties of the script *)

(** ** More frame rules *)

Ltac frame_cases :=
  repeat match goal with
    | |- preserves _ (modify _) => frame_modify
    | |- preserves _ (ret _) => apply preserves_ret
    | |- preserves _ (throw _) => apply preserves_throw
    | |- preserves _ (lift _) => apply preserves_lift
    | |- preserves _ (gets _) => apply preserves_gets
    | |- preserves _ (bind _ _) => apply preserves_bind
    | |- preserves _ (forEach _ _) => apply preserves_forEach
    | |- preserves _ (detached _) => apply preserves_detached
    | |- preserves _ (try_catch _ _) => apply preserves_try_catch
    | |- preserves _ (finally _ _) => apply preserves_finally
    | |- preserves _ (match ?x with _ => _ end) => destruct x
    | |- forall x, @?P x => intro
    | |- _ => progress cbv beta
    end.

(** Unfold the script down to the monad and the DOM writes, then apply the
    frame rules. *)
Ltac frame_script :=
  unfold fetchAndShow, try_block, catch_block, finally_block, fetch_json,
    applyFilter, transitionToGallery, buildGallery, openModal, closeModal,
    showLoading, wait_minimum, fade_placeholder, classList_add_fade_out,
    set_button, set_aria_busy, set_innerHTML, appendChild, sleep;
  frame_cases.

Section Untouched.

Variable host : Host.

Lemma applyFilter_inputs :
  preserves (fun w => (startDateInput w, endDateInput w)) (applyFilter host).
Proof. frame_script. Qed.

Lemma applyFilter_button : preserves getImageBtn (applyFilter host).
Proof. frame_script. Qed.

Lemma applyFilter_modal : preserves modal (applyFilter host).
Proof. frame_script. Qed.

Lemma applyFilter_console : preserves console (applyFilter host).
Proof. frame_script. Qed.

Lemma applyFilter_busy :
  preserves (fun w => aria_busy (gallery w)) (applyFilter host).
Proof. frame_script. Qed.

Lemma fetchAndShow_modal net : preserves modal (fetchAndShow host net).
Proof. frame_script. Qed.

Lemma fetchAndShow_inputs net :
  preserves (fun w => (startDateInput w, endDateInput w))
            (fetchAndShow host net).
Proof. frame_script. Qed.

Lemma try_block_console net start :
  preserves console (try_block host net start).
Proof. frame_script. Qed.

Lemma finally_block_console label : preserves console (finally_block label).
Proof. frame_script. Qed.

Lemma catch_block_console start err w :
  console (snd (catch_block start err w))
  = (console w ++ [("Fetch error:", err)])%list.
Proof.
  unfold catch_block.
  destruct (wait_minimum_run start w) as [t Ht].
  erewrite bind_Ok by exact Ht.
  erewrite bind_Ok by apply fade_placeholder_run.
  simpl. unfold faded.
  destruct (has_placeholder _); reflexivity.
Qed.

End Untouched.

(** ** The renderer, further *)

(** A callback that throws on [null] and answers on objects makes
    [js_filter] throw as soon as the array holds a [null]. *)
Lemma js_filter_Null (f : Item -> result bool) items e :
  f Null = Throw e ->
  (forall r, exists b, f (Obj r) = Ok b) ->
  In Null items ->
  js_filter f items = Throw e.
Proof.
  intros Hn Ho. induction items as [|it items IH]; intros Hin.
  - destruct Hin.
  - simpl. destruct it as [|r].
    + rewrite Hn. reflexivity.
    + destruct (Ho r) as [b ->]. destruct Hin as [Hin|Hin]; [discriminate|].
      rewrite (IH Hin). reflexivity.
Qed.

Lemma cards_gallery_view images :
  cards (gallery_view images) = map card_of images.
Proof.
  destruct images as [|r images]; [reflexivity|].
  unfold gallery_view, cards.
  induction (r :: images) as [|x l IH]; [reflexivity|].
  simpl. f_equal. exact IH.
Qed.

(** X1: rendering the same array again changes nothing: [buildGallery] run
    on the page it has just left gives the same outcome and the same page,
    whether it rendered or threw. *)
Theorem buildGallery_idempotent (host : Host) (items : list Item) (w : World) :
  buildGallery host items (snd (buildGallery host items w))
  = buildGallery host items w.
Proof.
  destruct (buildGallery_cases host items w) as [[e He] | [rs ->]].
  - rewrite He. simpl. exact He.
  - rewrite !buildGallery_Obj. reflexivity.
Qed.

Lemma items_null_or_objects (items : list Item) :
  In Null items \/ exists rs, items = map Obj rs.
Proof.
  induction items as [|[|r] items IH].
  - right. exists []. reflexivity.
  - left. left. reflexivity.
  - destruct IH as [H | [rs ->]].
    + left. right. exact H.
    + right. exists (r :: rs). reflexivity.
Qed.

Lemma In_map_Obj_Null rs : In Null (map Obj rs) -> False.
Proof.
  intros H. apply in_map_iff in H as (r & E & _). discriminate E.
Qed.

(** [buildGallery] on an array with a [null]. *)
Lemma buildGallery_Null (host : Host) (items : list Item) (w : World) :
  In Null items ->
  buildGallery host items w = (Throw (null_item_error host), w).
Proof.
  intros Hin. unfold buildGallery.
  erewrite bind_Throw; [reflexivity|].
  unfold lift. erewrite js_filter_Null; eauto.
  intros r. eexists. apply isImage_Obj.
Qed.

(** X2: an array with a [null] in it is not rendered at all: [buildGallery]
    throws the TypeError of reading [media_type] off [null] and leaves the
    page, cards of an earlier rendering included, as it was. *)
Theorem buildGallery_null_item (host : Host) (items : list Item) (w : World) :
  In Null items ->
  buildGallery host items w = (Throw (null_item_error host), w).
Proof.
  intros Hin. unfold buildGallery, bind, lift.
  rewrite (js_filter_Null (isImage host) items (null_item_error host));
    [reflexivity | reflexivity | | exact Hin].
  intros r. exists (is_image r). apply isImage_Obj.
Qed.

Lemma buildGallery_null_item_witness :
  In Null [Obj record_A; Null]
  /\ buildGallery reference_host [Obj record_A; Null] initial_page
     = (Throw (null_item_error reference_host), initial_page).
Proof.
  assert (H : In Null [Obj record_A; Null]) by (simpl; auto).
  split; [exact H|].
  exact (buildGallery_null_item reference_host _ initial_page H).
Defined.

(** X3: after a rendering, a click on the card at position [k] opens the
    overlay on the [k]-th image record of the array, counting images only. *)
Theorem click_card_opens_record
    (host : Host) (rs : list Apod) (k : nat) (r : Apod) (w : World) :
  nth_error (filter (fun r => strict_eq (media_type r) "image") rs) k
  = Some r ->
  let w1 := snd (buildGallery host (map Obj rs) w) in
  dispatch host (ClickCard k) w1 = snd (openModal r w1).
Proof.
  intros Hk w1. subst w1. rewrite buildGallery_Obj. unfold dispatch.
  change (nth_error (filter is_image rs) k = Some r) in Hk.
  unfold nodes at 1. simpl gallery. simpl children.
  rewrite cards_gallery_view.
  rewrite (map_nth_error card_of k _ Hk). reflexivity.
Qed.

Lemma click_card_opens_record_witness :
  let w1 :=
    snd (buildGallery reference_host
           (map Obj [record_A; record_B; record_C]) initial_page) in
  nth_error (filter (fun r => strict_eq (media_type r) "image")
                    [record_A; record_B; record_C]) 1
  = Some record_C
  /\ modalTitle (modal (dispatch reference_host (ClickCard 1) w1)) = "C"
  /\ modalImage_src (modal (dispatch reference_host (ClickCard 1) w1))
     = "c_hd.jpg".
Proof.
  intros w1. split; [reflexivity|]. subst w1.
  rewrite (click_card_opens_record reference_host
             [record_A; record_B; record_C] 1 record_C initial_page eq_refl).
  split; reflexivity.
Defined.

(** X4: on records [transitionToGallery] leaves the gallery exactly as
    [buildGallery] would, and takes 380 ms when, and only when, there was a
    placeholder to fade. *)
Theorem transitionToGallery_records
    (host : Host) (rs : list Apod) (w : World) :
  let w' := snd (transitionToGallery host (map Obj rs) w) in
  fst (transitionToGallery host (map Obj rs) w) = Ok tt
  /\ gallery w' = gallery (snd (buildGallery host (map Obj rs) w))
  /\ now w' = (if has_placeholder (nodes w) then now w + 380 else now w).
Proof.
  rewrite transitionToGallery_Obj, buildGallery_Obj. simpl.
  unfold faded, nodes.
  destruct (has_placeholder (children (gallery w))); repeat split.
Qed.

(** ** The filter, further *)

Lemma js_filter_ext (f g : Item -> result bool) items :
  (forall it, f it = g it) -> js_filter f items = js_filter g items.
Proof.
  intros H. induction items as [|it items IH]; [reflexivity|].
  simpl. rewrite H, IH. reflexivity.
Qed.

Lemma filter_and_r {A} (p q : A -> bool) (l : list A) :
  (forall x, p x = true -> q x = true) ->
  filter p (filter q l) = filter p l.
Proof.
  intros Hpq. induction l as [|x l IH]; [reflexivity|].
  simpl. destruct (q x) eqn:Q; simpl.
  - rewrite IH. reflexivity.
  - destruct (p x) eqn:P; [|exact IH].
    rewrite (Hpq _ P) in Q. discriminate.
Qed.

Lemma incl_map_Obj l1 l2 : incl l1 l2 -> incl (map Obj l1) (map Obj l2).
Proof. apply incl_map. Qed.

Lemma filter_engine_Null (host : Host) items a b :
  In Null items ->
  filter_engine host items a b = Throw (null_item_error host).
Proof.
  intros Hin. unfold filter_engine.
  destruct (negb (str_truthy a) && negb (str_truthy b)).
  - apply js_filter_Null; auto. intros r. eexists. apply isImage_Obj.
  - destruct (dateBounds host a b) as [s e].
    apply js_filter_Null; auto. intros r. eexists. apply keepItem_Obj.
Qed.

(** X5: with a [null] among the cached items the filter handler throws the
    TypeError of reading [media_type] off [null], whatever the two inputs
    hold, and leaves the page as it was: no placeholder replaces what the
    gallery showed. *)
Theorem applyFilter_null_item (host : Host) (items : list Item) (w : World) :
  lastFetchedItems w = Some items ->
  In Null items ->
  applyFilter host w = (Throw (null_item_error host), w).
Proof.
  intros Hc Hin. apply (applyFilter_Throw host items w _ Hc).
  apply filter_engine_Null. exact Hin.
Qed.

Lemma applyFilter_null_item_witness :
  let w := page [Obj record_A; Null] "2024-01-01" EmptyString in
  lastFetchedItems w = Some [Obj record_A; Null]
  /\ In Null [Obj record_A; Null]
  /\ applyFilter reference_host w = (Throw (null_item_error reference_host), w).
Proof.
  intros w.
  assert (H : In Null [Obj record_A; Null]) by (simpl; auto).
  split; [reflexivity|]. split; [exact H|].
  exact (applyFilter_null_item reference_host _ w eq_refl H).
Defined.

(** What [applyFilter] leaves alone. *)
Lemma applyFilter_frame (host : Host) (w : World) :
  let w' := snd (applyFilter host w) in
  lastFetchedItems w' = lastFetchedItems w
  /\ startDateInput w' = startDateInput w
  /\ endDateInput w' = endDateInput w
  /\ getImageBtn w' = getImageBtn w
  /\ modal w' = modal w
  /\ console w' = console w
  /\ aria_busy (gallery w') = aria_busy (gallery w).
Proof.
  intros w'. subst w'.
  pose proof (applyFilter_inputs host w) as Hi. simpl in Hi.
  injection Hi as Hs He.
  repeat split; auto.
  - apply applyFilter_cache.
  - apply applyFilter_button.
  - apply applyFilter_modal.
  - apply applyFilter_console.
  - apply (applyFilter_busy host w).
Qed.

(** X6: the filter handler reads the cache and the inputs and writes the
    gallery's children: on every page, whether it renders, shows a
    placeholder or throws, it leaves the cache, both date inputs, the fetch
    button, the overlay, the console and the busy mark as they were. *)
Theorem applyFilter_untouched (host : Host) (w : World) :
  let w' := snd (applyFilter host w) in
  lastFetchedItems w' = lastFetchedItems w
  /\ startDateInput w' = startDateInput w
  /\ endDateInput w' = endDateInput w
  /\ getImageBtn w' = getImageBtn w
  /\ modal w' = modal w
  /\ console w' = console w
  /\ aria_busy (gallery w') = aria_busy (gallery w).
Proof.
  intros w'. subst w'.
  pose proof (applyFilter_inputs host w) as Hi. simpl in Hi.
  injection Hi as Hs He.
  repeat split; auto.
  - apply applyFilter_cache.
  - apply applyFilter_button.
  - apply applyFilter_modal.
  - apply applyFilter_console.
  - apply (applyFilter_busy host w).
Qed.

(** X7: filtering twice is filtering once: on every page, a second run of
    the filter handler right after the first leaves the gallery as the
    first did. *)
Theorem applyFilter_idempotent (host : Host) (w : World) :
  gallery (snd (applyFilter host (snd (applyFilter host w))))
  = gallery (snd (applyFilter host w)).
Proof.
  destruct (applyFilter_frame host w) as (Hc & Hs & He & _ & _ & _ & Hb).
  set (w1 := snd (applyFilter host w)) in *.
  destruct (lastFetchedItems w) as [items|] eqn:C.
  - destruct (filter_engine host items (startDateInput w) (endDateInput w))
      as [sel|e] eqn:E.
    + destruct (filter_engine_Ok_objects host _ _ _ _ E) as [rs ->].
      destruct (applyFilter_Obj host rs w1 Hc) as [_ ->].
      rewrite Hs, He, Hb. subst w1.
      destruct (applyFilter_Obj host rs w C) as [_ ->]. reflexivity.
    + subst w1. rewrite (applyFilter_Throw host items w e C E). simpl.
      rewrite (applyFilter_Throw host items w e C E). reflexivity.
  - rewrite (applyFilter_no_cache host w1 Hc). simpl. rewrite Hb.
    subst w1. rewrite (applyFilter_no_cache host w C). reflexivity.
Qed.

(** X8: the date bounds only take away from the unfiltered view.  On cached
    records, what the filter retains for any two inputs is included in what
    it retains with both inputs empty, and filtering that unfiltered result
    with the same inputs retains the same records. *)
Theorem filter_engine_refines_images
    (host : Host) (rs : list Apod) (a b : string) :
  exists sel images,
    filter_engine host (map Obj rs) a b = Ok sel
    /\ filter_engine host (map Obj rs) EmptyString EmptyString = Ok images
    /\ incl sel images
    /\ filter_engine host images a b = Ok sel.
Proof.
  exists (map Obj (selected host a b rs)), (map Obj (filter is_image rs)).
  split; [apply filter_engine_Obj|].
  split; [apply filter_engine_Obj|].
  split.
  - apply incl_map_Obj. intros r Hr.
    pose proof (selected_images host a b rs) as Himg.
    rewrite Forall_forall in Himg.
    apply filter_In. split; [|auto].
    unfold selected in Hr. destruct (bounds_given a b);
      apply filter_In in Hr; tauto.
  - rewrite filter_engine_Obj. do 2 f_equal.
    unfold selected. destruct (bounds_given a b).
    + apply filter_and_r. apply keep_is_image.
    + apply filter_idem.
Qed.

Section FilterEdges.

Variable host : Host.

(** With each bound absent or an Invalid Date, the callback is the image
    test. *)
Lemma keepItem_no_constraint (start end_ : option Date) it :
  start = None \/ start = Some None ->
  end_ = None \/ end_ = Some None ->
  keepItem host start end_ it = isImage host it.
Proof.
  intros Hs He. destruct it as [|r]; [reflexivity|].
  rewrite keepItem_Obj, isImage_Obj. f_equal. unfold keep, date_gt, date_lt.
  destruct Hs as [-> | ->], He as [-> | ->];
    destruct (new_Date host (date r)); simpl;
    rewrite ?andb_true_r; reflexivity.
Qed.

Lemma dateBounds_ordered a b ta tb :
  valid_date host a ta -> valid_date host b tb -> ta <= tb ->
  dateBounds host a b = (Some (Some ta), Some (Some tb)).
Proof.
  intros [Ha Pa] [Hb Pb] Hle. unfold dateBounds.
  rewrite Ha, Hb, Pa, Pb. unfold date_gt, date_lt.
  replace (tb <? ta) with false by (symmetry; apply Z.ltb_ge; lia).
  reflexivity.
Qed.

Lemma bounds_given_valid a b ta : valid_date host a ta -> bounds_given a b = true.
Proof. intros [Ha _]. unfold bounds_given. rewrite Ha. reflexivity. Qed.

(** A record kept within a range is kept within every wider one. *)
Lemma keep_wider r lo hi lo' hi' :
  lo <= lo' -> hi' <= hi ->
  keep host (Some (Some lo')) (Some (Some hi')) r = true ->
  keep host (Some (Some lo)) (Some (Some hi)) r = true.
Proof.
  intros Hlo Hhi. unfold keep, date_gt, date_lt.
  destruct (new_Date host (date r)) as [d|]; [|auto].
  rewrite !andb_true_iff, !negb_true_iff, !Z.ltb_ge.
  intros [[Hi H1] H2]. repeat split; [exact Hi | lia | lia].
Qed.

End FilterEdges.

(** X9: an input the host cannot read as a date bounds nothing.  When
    neither input gives a valid date, be it empty or unreadable, the filter
    retains what it retains with both inputs empty, on any cache. *)
Theorem filter_engine_unreadable_bounds
    (host : Host) (items : list Item) (a b : string) :
  Date_parse host a = None ->
  Date_parse host b = None ->
  filter_engine host items a b
  = filter_engine host items EmptyString EmptyString.
Proof.
  intros Pa Pb. unfold filter_engine at 2. simpl.
  unfold filter_engine.
  destruct (negb (str_truthy a) && negb (str_truthy b)); [reflexivity|].
  unfold dateBounds. rewrite Pa, Pb.
  destruct (str_truthy a), (str_truthy b); simpl;
    apply js_filter_ext; intros it; apply keepItem_no_constraint; auto.
Qed.

Lemma filter_engine_unreadable_bounds_witness :
  Date_parse reference_host "tomorrow" = None
  /\ Date_parse reference_host EmptyString = None
  /\ filter_engine reference_host sample_items "tomorrow" EmptyString
     = Ok [Obj record_A; Obj record_C].
Proof.
  do 2 (split; [reflexivity|]).
  rewrite (filter_engine_unreadable_bounds reference_host sample_items
             "tomorrow" EmptyString eq_refl eq_refl).
  reflexivity.
Defined.

(** X10: an image record whose date the host cannot read is never filtered
    out: whatever the two inputs hold, the filter retains it. *)
Theorem filter_engine_keeps_undated
    (host : Host) (rs : list Apod) (r : Apod) (a b : string) :
  In r rs ->
  media_type r = Some "image" ->
  new_Date host (date r) = None ->
  exists sel,
    filter_engine host (map Obj rs) a b = Ok sel /\ In (Obj r) sel.
Proof.
  intros Hin Hm Hd. eexists. split; [apply filter_engine_Obj|].
  apply In_map_Obj. unfold selected.
  destruct (bounds_given a b); apply filter_In; split; auto.
  - apply keep_invalid_date; assumption.
  - apply is_image_media_type. exact Hm.
Qed.

Lemma filter_engine_keeps_undated_witness :
  In record_undated [record_A; record_undated]
  /\ media_type record_undated = Some "image"
  /\ new_Date reference_host (date record_undated) = None
  /\ filter_engine reference_host (map Obj [record_A; record_undated])
       "2024-01-02" "2024-01-10"
     = Ok [Obj record_undated].
Proof.
  assert (Hin : In record_undated [record_A; record_undated])
    by (simpl; auto).
  split; [exact Hin|]. do 2 (split; [reflexivity|]).
  destruct (filter_engine_keeps_undated reference_host
              [record_A; record_undated] record_undated
              "2024-01-02" "2024-01-10" Hin eq_refl eq_refl)
    as (sel & He & _).
  rewrite He. vm_compute in He. injection He as <-. reflexivity.
Defined.

(** X11: widening the range never loses a picture.  For valid dates with
    [a <= a' <= b' <= b], every record the filter retains for the inner
    range (a', b') it also retains for the outer range (a, b). *)
Theorem filter_engine_wider_range
    (host : Host) (rs : list Apod) (a b a' b' : string) (ta tb ta' tb' : Z) :
  valid_date host a ta -> valid_date host b tb ->
  valid_date host a' ta' -> valid_date host b' tb' ->
  ta <= ta' -> ta' <= tb' -> tb' <= tb ->
  exists inner outer,
    filter_engine host (map Obj rs) a' b' = Ok inner
    /\ filter_engine host (map Obj rs) a b = Ok outer
    /\ incl inner outer.
Proof.
  intros Va Vb Va' Vb' H1 H2 H3.
  exists (map Obj (selected host a' b' rs)), (map Obj (selected host a b rs)).
  split; [apply filter_engine_Obj|]. split; [apply filter_engine_Obj|].
  apply incl_map_Obj. unfold selected.
  rewrite (bounds_given_valid host a b ta Va).
  rewrite (bounds_given_valid host a' b' ta' Va').
  rewrite (dateBounds_ordered host a b ta tb Va Vb) by lia.
  rewrite (dateBounds_ordered host a' b' ta' tb' Va' Vb') by lia.
  simpl. intros r Hr. apply filter_In in Hr as [Hin Hk].
  apply filter_In. split; [exact Hin|].
  eapply keep_wider; [| |exact Hk]; lia.
Qed.

Lemma filter_engine_wider_range_witness :
  valid_date reference_host "2024-01-01" 1704067200000
  /\ valid_date reference_host "2024-01-10" 1704844800000
  /\ valid_date reference_host "2024-01-02" 1704153600000
  /\ valid_date reference_host "2024-01-07" 1704585600000
  /\ 1704067200000 <= 1704153600000
  /\ 1704153600000 <= 1704585600000
  /\ 1704585600000 <= 1704844800000
  /\ exists inner outer,
       filter_engine reference_host (map Obj [record_A; record_B; record_C])
         "2024-01-02" "2024-01-07" = Ok inner
       /\ filter_engine reference_host (map Obj [record_A; record_B; record_C])
            "2024-01-01" "2024-01-10" = Ok outer
       /\ incl inner outer.
Proof.
  assert (Va : valid_date reference_host "2024-01-01" 1704067200000)
    by (split; reflexivity).
  assert (Vb : valid_date reference_host "2024-01-10" 1704844800000)
    by (split; reflexivity).
  assert (Va' : valid_date reference_host "2024-01-02" 1704153600000)
    by (split; reflexivity).
  assert (Vb' : valid_date reference_host "2024-01-07" 1704585600000)
    by (split; reflexivity).
  assert (H1 : 1704067200000 <= 1704153600000) by lia.
  assert (H2 : 1704153600000 <= 1704585600000) by lia.
  assert (H3 : 1704585600000 <= 1704844800000) by lia.
  repeat (split; [assumption|]).
  exact (filter_engine_wider_range reference_host
           [record_A; record_B; record_C] _ _ _ _ _ _ _ _
           Va Vb Va' Vb' H1 H2 H3).
Defined.

(** ** The fetch handler, further *)

Lemma with_now_same w : with_now (now w) w = w.
Proof. destruct w. reflexivity. Qed.

(** The minimum wait brings the clock to [start + MIN_LOADING_MS] unless it
    is already past it. *)
Lemma wait_minimum_exact start w :
  wait_minimum start w
  = (Ok tt, with_now (Z.max (now w) (start + MIN_LOADING_MS)) w).
Proof.
  unfold wait_minimum, bind, gets, sleep, modify.
  destruct (MIN_LOADING_MS - (now w - start) >? 0) eqn:E.
  - apply Z.gtb_lt in E. rewrite Z.max_r by lia.
    do 2 f_equal. lia.
  - rewrite Z.gtb_ltb in E. apply Z.ltb_ge in E. rewrite Z.max_l by lia.
    rewrite with_now_same. reflexivity.
Qed.

Section FetchRuns.

Variable host : Host.

(** A response that fails makes the [try] block throw on the loading page,
    before anything is cached. *)
Lemma try_block_failure net start w err :
  fetch_failure host (response net) = Some err ->
  try_block host net start w = (Throw err, loading_page (latency net) w).
Proof.
  destruct net as [lat [e | [|] [data | e]]]; simpl; intros H.
  - injection H as <-. reflexivity.
  - destruct (normalize host data) as [items|e] eqn:N; [discriminate|].
    injection H as <-. rewrite try_block_parsed.
    unfold bind, lift. rewrite N. reflexivity.
  - injection H as <-. reflexivity.
  - injection H as <-. reflexivity.
  - injection H as <-. reflexivity.
Qed.

(** The [catch] block entered while the gallery holds a placeholder. *)
Lemma catch_block_placeholder start err w :
  has_placeholder (nodes w) = true ->
  catch_block start err w
  = (Ok tt,
     with_console (console w ++ [("Fetch error:", err)])
       (with_gallery (mkGallery [Placeholder false false (msg_error err)]
                                (aria_busy (gallery w)))
          (with_now (Z.max (now w) (start + MIN_LOADING_MS) + 380) w))).
Proof.
  intros Hp. unfold catch_block.
  erewrite bind_Ok by apply wait_minimum_exact.
  erewrite bind_Ok by apply fade_placeholder_run.
  unfold faded. simpl. unfold nodes in Hp. rewrite Hp. reflexivity.
Qed.

(** The whole handler on a response that fails. *)
Lemma fetchAndShow_failure_run net w err :
  fetch_failure host (response net) = Some err ->
  fetchAndShow host net w
  = (Ok tt,
     mkWorld (mkButton false (restored_label (textContent (getImageBtn w))))
             (mkGallery [Placeholder false false (msg_error err)] None)
             (modal w) (startDateInput w) (endDateInput w)
             (lastFetchedItems w)
             (console w ++ [("Fetch error:", err)])
             (Z.max (now w + latency net) (now w + MIN_LOADING_MS) + 380)).
Proof.
  intros H. rewrite fetchAndShow_blocks. unfold finally, try_catch.
  rewrite (try_block_failure net (now w) w err H).
  rewrite catch_block_placeholder by reflexivity.
  reflexivity.
Qed.

(** The [try] block on a body that normalises to records. *)
Lemma try_block_success lat data rs start w :
  normalize host data = Ok (map Obj rs) ->
  try_block host (mkFetch lat (Responded true (Ok data))) start w
  = (Ok tt,
     mkWorld (mkButton true "Loading…")
             (mkGallery (gallery_view (filter is_image rs)) (Some "true"))
             (modal w) (startDateInput w) (endDateInput w)
             (Some (map Obj rs)) (console w)
             (Z.max (now w + lat) (start + MIN_LOADING_MS) + 380)).
Proof.
  intros N. rewrite try_block_parsed.
  erewrite bind_Ok by (unfold lift; rewrite N; reflexivity).
  erewrite bind_Ok by reflexivity.
  erewrite bind_Ok by apply wait_minimum_exact.
  erewrite bind_Ok by apply fade_placeholder_run.
  rewrite buildGallery_Obj. reflexivity.
Qed.

(** The [try] block on a body that normalises to an array with a [null]:
    the array is cached, the wait and the fade happen, the renderer
    throws. *)
Lemma try_block_null lat data items start w :
  normalize host data = Ok items ->
  In Null items ->
  try_block host (mkFetch lat (Responded true (Ok data))) start w
  = (Throw (null_item_error host),
     mkWorld (mkButton true "Loading…")
             (mkGallery [Placeholder true true msg_loading] (Some "true"))
             (modal w) (startDateInput w) (endDateInput w)
             (Some items) (console w)
             (Z.max (now w + lat) (start + MIN_LOADING_MS) + 380)).
Proof.
  intros N Hin. rewrite try_block_parsed.
  erewrite bind_Ok by (unfold lift; rewrite N; reflexivity).
  erewrite bind_Ok by reflexivity.
  erewrite bind_Ok by apply wait_minimum_exact.
  erewrite bind_Ok by apply fade_placeholder_run.
  rewrite (buildGallery_Null host items _ Hin). reflexivity.
Qed.

End FetchRuns.

Section FetchOutcomes.

Variable host : Host.

Lemma fetch_failure_None net :
  fetch_failure host (response net) = None ->
  exists data items,
    net = mkFetch (latency net) (Responded true (Ok data))
    /\ normalize host data = Ok items.
Proof.
  destruct net as [lat [e | [|] [data | e]]]; simpl; try discriminate.
  destruct (normalize host data) as [items|e] eqn:N; [|discriminate].
  intros _. exists data, items. auto.
Qed.

(** The whole handler on a body that normalises to records. *)
Lemma fetchAndShow_success_run lat data rs w :
  normalize host data = Ok (map Obj rs) ->
  fetchAndShow host (mkFetch lat (Responded true (Ok data))) w
  = (Ok tt,
     mkWorld (mkButton false (restored_label (textContent (getImageBtn w))))
             (mkGallery (gallery_view (filter is_image rs)) None)
             (modal w) (startDateInput w) (endDateInput w)
             (Some (map Obj rs)) (console w)
             (Z.max (now w + lat) (now w + MIN_LOADING_MS) + 380)).
Proof.
  intros N. rewrite fetchAndShow_blocks. unfold finally, try_catch.
  rewrite (try_block_success host lat data rs (now w) w N). reflexivity.
Qed.

(** The whole handler on a body that normalises to an array with a
    [null]. *)
Lemma fetchAndShow_null_run lat data items w :
  normalize host data = Ok items ->
  In Null items ->
  fetchAndShow host (mkFetch lat (Responded true (Ok data))) w
  = (Ok tt,
     mkWorld (mkButton false (restored_label (textContent (getImageBtn w))))
             (mkGallery
                [Placeholder false false (msg_error (null_item_error host))]
                None)
             (modal w) (startDateInput w) (endDateInput w)
             (Some items)
             (console w ++ [("Fetch error:", null_item_error host)])
             (Z.max (now w + lat) (now w + MIN_LOADING_MS) + 380 + 380)).
Proof.
  intros N Hin. rewrite fetchAndShow_blocks. unfold finally, try_catch.
  rewrite (try_block_null host lat data items (now w) w N Hin).
  rewrite catch_block_placeholder by reflexivity.
  simpl. rewrite Z.max_l by lia. reflexivity.
Qed.

End FetchOutcomes.

(** X12: a fetch that fails before a body is normalised (the request is
    rejected, the status is not ok, the body is not JSON, or the body is
    [null]) leaves the cache as it was, so that an earlier feed can still be
    filtered; no card is left in the gallery, and the error is the one
    entry added to the console.  When the error's message holds no markup,
    the gallery holds "Error loading images: " followed by that message. *)
Theorem fetchAndShow_failure
    (host : Host) (net : Fetch) (err : JsError) (w : World) :
  fetch_failure host (response net) = Some err ->
  let w' := snd (fetchAndShow host net w) in
  lastFetchedItems w' = lastFetchedItems w
  /\ cards (nodes w') = []
  /\ console w' = (console w ++ [("Fetch error:", err)])%list
  /\ (markup_free (message err) = true ->
      nodes w'
      = [Placeholder false false ("Error loading images: " ++ message err)]).
Proof.
  intros H w'. subst w'. rewrite (fetchAndShow_failure_run host net w err H).
  do 3 (split; [reflexivity|]). intros _. reflexivity.
Qed.

Lemma fetchAndShow_failure_witness :
  let w := page sample_items EmptyString EmptyString in
  let net := mkFetch 40 (Responded false (Ok (PArray []))) in
  fetch_failure reference_host (response net)
  = Some (Error "Network response was not ok")
  /\ lastFetchedItems (snd (fetchAndShow reference_host net w))
     = Some sample_items
  /\ nodes (snd (fetchAndShow reference_host net w))
     = [Placeholder false false
          "Error loading images: Network response was not ok"].
Proof.
  intros w net.
  destruct (fetchAndShow_failure reference_host net
              (Error "Network response was not ok") w eq_refl)
    as (Hc & _ & _ & Hn).
  split; [reflexivity|]. split; [exact Hc | exact (Hn eq_refl)].
Defined.

(** X13: a fetch whose body normalises to records caches exactly that
    sequence, replacing any earlier one, shows the view of its images, and
    adds nothing to the console. *)
Theorem fetchAndShow_success
    (host : Host) (lat : Z) (data : Payload) (rs : list Apod) (w : World) :
  normalize host data = Ok (map Obj rs) ->
  let w' :=
    snd (fetchAndShow host (mkFetch lat (Responded true (Ok data))) w) in
  lastFetchedItems w' = Some (map Obj rs)
  /\ nodes w' = gallery_view (filter is_image rs)
  /\ shown (nodes w') = filter is_image rs
  /\ console w' = console w.
Proof.
  intros N w'. subst w'. rewrite (fetchAndShow_success_run host lat data rs w N).
  repeat split. apply gallery_view_shown.
Qed.

Lemma fetchAndShow_success_witness :
  let data := PObject [("a", Obj record_A); ("b", Obj record_B)] in
  let w' :=
    snd (fetchAndShow reference_host (mkFetch 40 (Responded true (Ok data)))
           (page sample_items EmptyString EmptyString)) in
  normalize reference_host data = Ok (map Obj [record_A; record_B])
  /\ lastFetchedItems w' = Some [Obj record_A; Obj record_B]
  /\ shown (nodes w') = [record_A].
Proof.
  intros data w'. subst w'.
  destruct (fetchAndShow_success reference_host 40 data [record_A; record_B]
              (page sample_items EmptyString EmptyString) eq_refl)
    as (Hc & _ & Hs & _).
  split; [reflexivity|]. split; [exact Hc | exact Hs].
Defined.

(** X14: a fetched array with a [null] in it is cached all the same, since
    the cache is written before the rendering; nothing is rendered, the
    gallery holds the message of the TypeError, and the error is logged. *)
Theorem fetchAndShow_null_item
    (host : Host) (lat : Z) (data : Payload) (items : list Item) (w : World) :
  normalize host data = Ok items ->
  In Null items ->
  let w' :=
    snd (fetchAndShow host (mkFetch lat (Responded true (Ok data))) w) in
  lastFetchedItems w' = Some items
  /\ nodes w'
     = [Placeholder false false
          ("Error loading images: " ++ nullReadMessage host "media_type")]
  /\ console w'
     = (console w ++ [("Fetch error:", null_item_error host)])%list.
Proof.
  intros N Hin w'. subst w'.
  rewrite (fetchAndShow_null_run host lat data items w N Hin).
  repeat split.
Qed.

Lemma fetchAndShow_null_item_witness :
  let data := PArray [Obj record_A; Null] in
  let w' :=
    snd (fetchAndShow reference_host (mkFetch 40 (Responded true (Ok data)))
           initial_page) in
  normalize reference_host data = Ok [Obj record_A; Null]
  /\ In Null [Obj record_A; Null]
  /\ lastFetchedItems w' = Some [Obj record_A; Null]
  /\ cards (nodes w') = [].
Proof.
  intros data w'. subst w'.
  assert (Hin : In Null [Obj record_A; Null]) by (simpl; auto).
  destruct (fetchAndShow_null_item reference_host 40 data
              [Obj record_A; Null] initial_page eq_refl Hin)
    as (Hc & Hn & _).
  split; [reflexivity|]. split; [exact Hin|].
  split; [exact Hc | rewrite Hn; reflexivity].
Defined.

Lemma buildGallery_now (host : Host) items :
  preserves now (buildGallery host items).
Proof. frame_script. Qed.

Lemma faded_now w : now w <= now (faded w).
Proof.
  unfold faded. destruct (has_placeholder (children (gallery w))); simpl; lia.
Qed.

(** X15: the minimum loading time.  Whatever the network does, the handler
    does not end before 1200 ms after it started.  This does not rest on
    what the gallery holds when the response arrives: from any page, the
    rest of the [try] block, from the minimum wait on, and the [catch] block
    both end at or after [start + 1200]. *)
Theorem fetchAndShow_minimum_time (host : Host) (net : Fetch) (w : World) :
  MIN_LOADING_MS <= now (snd (fetchAndShow host net w)) - now w
  /\ (forall start items w1,
        start + MIN_LOADING_MS
        <= now (snd ((wait_minimum start ;; fade_placeholder ;;
                      buildGallery host items) w1)))
  /\ (forall start err w1,
        start + MIN_LOADING_MS <= now (snd (catch_block start err w1))).
Proof.
  split; [|split].
  - destruct (fetch_failure host (response net)) as [err|] eqn:F.
    + rewrite (fetchAndShow_failure_run host net w err F). simpl. lia.
    + destruct (fetch_failure_None host net F) as (data & items & -> & N).
      simpl latency.
      destruct (items_null_or_objects items) as [Hin | [rs ->]].
      * rewrite (fetchAndShow_null_run host _ data items w N Hin).
        simpl. lia.
      * rewrite (fetchAndShow_success_run host _ data rs w N).
        simpl. lia.
  - intros start items w1.
    erewrite bind_Ok by apply wait_minimum_exact.
    erewrite bind_Ok by apply fade_placeholder_run.
    rewrite (buildGallery_now host items).
    match goal with |- _ <= now (faded ?w2) =>
      pose proof (faded_now w2) as Hf; simpl in Hf end.
    lia.
  - intros start err w1. unfold catch_block.
    erewrite bind_Ok by apply wait_minimum_exact.
    erewrite bind_Ok by apply fade_placeholder_run.
    match goal with |- context [faded ?w2] =>
      pose proof (faded_now w2) as Hf; simpl in Hf end.
    simpl. lia.
Qed.

(** X16: an error is logged exactly when the rendering is given up.  After
    a fetch, either the gallery holds the view of the cached images and the
    console is as before, or it holds no card and one error is the single
    entry the console gained; when that error's message holds no markup,
    the gallery holds "Error loading images: " followed by the message. *)
Theorem fetchAndShow_logs_what_it_shows
    (host : Host) (net : Fetch) (w : World) :
  let w' := snd (fetchAndShow host net w) in
  (exists rs,
     lastFetchedItems w' = Some (map Obj rs)
     /\ nodes w' = gallery_view (filter is_image rs)
     /\ console w' = console w)
  \/ (exists err,
        cards (nodes w') = []
        /\ console w' = (console w ++ [("Fetch error:", err)])%list
        /\ (markup_free (message err) = true ->
            nodes w'
            = [Placeholder false false
                 ("Error loading images: " ++ message err)])).
Proof.
  intros w'. subst w'.
  destruct (fetch_failure host (response net)) as [err|] eqn:F.
  - right. exists err.
    rewrite (fetchAndShow_failure_run host net w err F).
    do 2 (split; [reflexivity|]). intros _. reflexivity.
  - destruct (fetch_failure_None host net F) as (data & items & -> & N).
    destruct (items_null_or_objects items) as [Hin | [rs ->]].
    + right. exists (null_item_error host).
      rewrite (fetchAndShow_null_run host _ data items w N Hin).
      do 2 (split; [reflexivity|]). intros _. reflexivity.
    + left. exists rs.
      rewrite (fetchAndShow_success_run host _ data rs w N).
      repeat split.
Qed.

(** X17: a fetch never touches the overlay or the date inputs: an open
    overlay stays open on the same record, and the dates the user typed
    survive a reload of the feed. *)
Theorem fetchAndShow_untouched (host : Host) (net : Fetch) (w : World) :
  let w' := snd (fetchAndShow host net w) in
  modal w' = modal w
  /\ startDateInput w' = startDateInput w
  /\ endDateInput w' = endDateInput w.
Proof.
  intros w'. subst w'.
  pose proof (fetchAndShow_inputs host net w) as Hi. simpl in Hi.
  injection Hi as Hs He.
  split; [apply fetchAndShow_modal | split; assumption].
Qed.

(** ** The overlay and the keyboard *)

Lemma with_modal_same w : with_modal (modal w) w = w.
Proof. destruct w. reflexivity. Qed.

(** Closing a closed overlay changes nothing. *)
Lemma closeModal_closed w :
  show (modal w) = false ->
  aria_hidden (modal w) = Some "true" ->
  modalImage_src (modal w) = EmptyString ->
  snd (closeModal w) = w.
Proof.
  intros Hs Ha Hi. unfold closeModal, modify. simpl.
  rewrite <- (with_modal_same w) at 6. f_equal.
  destruct (modal w). simpl in *. subst. reflexivity.
Qed.

(** Pressing Enter in either date input does what a click on the
    filter button does, on every page; the window's key listener, which the
    key reaches next, ignores it. *)
Theorem enter_is_filter_click (host : Host) (w : World) :
  dispatch host (KeydownStartDate "Enter") w = dispatch host ClickFilterBtn w
  /\ dispatch host (KeydownEndDate "Enter") w = dispatch host ClickFilterBtn w.
Proof. split; reflexivity. Qed.

(** X18: Escape closes the overlay when it is open and does nothing when it
    is closed, wherever it is pressed, and never starts a filter; any key
    other than Enter and Escape changes nothing at all. *)
Theorem keyboard_dismissal (host : Host) (key : string) (w : World) :
  let closed_if_open :=
    if show (modal w) then snd (closeModal w) else w in
  dispatch host (KeydownWindow "Escape") w = closed_if_open
  /\ dispatch host (KeydownStartDate "Escape") w = closed_if_open
  /\ dispatch host (KeydownEndDate "Escape") w = closed_if_open
  /\ (key <> "Enter" -> key <> "Escape" ->
      dispatch host (KeydownWindow key) w = w
      /\ dispatch host (KeydownStartDate key) w = w
      /\ dispatch host (KeydownEndDate key) w = w).
Proof.
  intros closed_if_open. subst closed_if_open.
  assert (HE : dispatch host (KeydownWindow "Escape") w
               = if show (modal w) then snd (closeModal w) else w).
  { unfold dispatch, listener, onWindowKeydown, bind, gets. simpl.
    destruct (show (modal w)); reflexivity. }
  split; [exact HE|]. split; [exact HE|]. split; [exact HE|].
  intros Hent Hesc.
  apply String.eqb_neq in Hent. apply String.eqb_neq in Hesc.
  unfold dispatch, listener, onDateKeydown, onWindowKeydown, bind, gets.
  rewrite Hent, Hesc. repeat split.
Qed.

(** X19: opening the overlay on a record and dismissing it does not bring
    the page back: the overlay is hidden again and holds no image, but it
    still carries the title, date, explanation and alternative text of the
    record; everything outside the overlay is as before. *)
Theorem open_then_dismiss (host : Host) (item : Apod) (w : World) :
  dispatch host ClickModalClose (snd (openModal item w))
  = with_modal
      (mkModal false (Some "true") EmptyString
         (ToString (js_or (title item) (Some "NASA image")))
         (or_empty (title item)) (or_empty (date item))
         (or_empty (explanation item)))
      w
  /\ dispatch host ClickModalOverlay (snd (openModal item w))
     = dispatch host ClickModalClose (snd (openModal item w)).
Proof.
  split; [|reflexivity].
  unfold dispatch, listener, closeModal, openModal, modify. simpl.
  rewrite !js_or_empty. reflexivity.
Qed.

Lemma keyboard_dismissal_witness :
  "a" <> "Enter" /\ "a" <> "Escape"
  /\ dispatch reference_host (KeydownStartDate "a")
       (page sample_items "2024-01-02" EmptyString)
     = page sample_items "2024-01-02" EmptyString.
Proof.
  assert (H1 : "a" <> "Enter") by discriminate.
  assert (H2 : "a" <> "Escape") by discriminate.
  split; [exact H1|]. split; [exact H2|].
  exact (proj1 (proj2 (proj2 (proj2 (proj2
           (keyboard_dismissal reference_host "a"
              (page sample_items "2024-01-02" EmptyString)))) H1 H2))).
Defined.

(** ** Sessions *)

Section Sessions.

Variable host : Host.

(** What every handler keeps, every event keeps. *)
Lemma dispatch_keeps (P : World -> Prop) :
  (forall net w, P w -> P (snd (fetchAndShow host net w))) ->
  (forall w, P w -> P (snd (applyFilter host w))) ->
  (forall w, P w -> P (snd (closeModal w))) ->
  (forall item w, P w -> P (snd (openModal item w))) ->
  (forall a b w, P w -> P (with_inputs a b w)) ->
  forall ev w, P w -> P (dispatch host ev w).
Proof.
  intros Hfetch Hfilter Hclose Hopen Hedit ev w Hw.
  assert (Hdate : forall key w0, P w0 -> P (listener (onDateKeydown host key) w0)).
  { intros key w0 H0. unfold listener, onDateKeydown.
    destruct (key =? "Enter")%string; [apply Hfilter | ]; exact H0. }
  assert (Hwin : forall key w0, P w0 -> P (listener (onWindowKeydown key) w0)).
  { intros key w0 H0. unfold listener, onWindowKeydown, bind, gets.
    destruct ((key =? "Escape")%string && show (modal w0));
      [apply Hclose | ]; exact H0. }
  destruct ev; simpl; auto.
  - destruct (disabled (getImageBtn w)); [exact Hw | apply Hfetch, Hw].
  - apply Hfilter, Hw.
  - apply Hclose, Hw.
  - apply Hclose, Hw.
  - destruct (nth_error (cards (nodes w)) index); [apply Hopen | ]; exact Hw.
Qed.

Lemma run_keeps (P : World -> Prop) :
  (forall ev w, P w -> P (dispatch host ev w)) ->
  forall evs w, P w -> P (run host evs w).
Proof.
  intros Hd evs. unfold run.
  induction evs as [|ev evs IH]; intros w Hw; simpl; auto.
Qed.

Lemma gallery_view_built images :
  Forall (fun r => is_image r = true) images ->
  Forall built_node (gallery_view images).
Proof.
  intros H. destruct images as [|r images].
  - repeat constructor.
  - unfold gallery_view. apply Forall_map.
    eapply Forall_impl; [|exact H].
    intros x Hx. split; [reflexivity | exact Hx].
Qed.

Lemma filter_view_built a b sel :
  Forall (fun r => is_image r = true) sel ->
  Forall built_node (filter_view a b sel).
Proof.
  intros H. unfold filter_view.
  destruct (bounds_given a b); [destruct sel|];
    try apply gallery_view_built; auto.
  repeat constructor.
Qed.

Lemma fetchAndShow_built net w :
  Forall built_node (nodes (snd (fetchAndShow host net w))).
Proof.
  destruct (fetchAndShow_nodes host net w) as [[err ->] | (rs & _ & ->)].
  - repeat constructor.
  - apply gallery_view_built, filter_images.
Qed.

Lemma applyFilter_built w :
  Forall built_node (nodes w) ->
  Forall built_node (nodes (snd (applyFilter host w))).
Proof.
  intros Hw. destruct (lastFetchedItems w) as [items|] eqn:C.
  - destruct (filter_engine host items (startDateInput w) (endDateInput w))
      as [sel|e] eqn:E.
    + destruct (filter_engine_Ok_objects host _ _ _ _ E) as [rs ->].
      destruct (applyFilter_Obj host rs w C) as [_ Hg].
      unfold nodes. rewrite Hg. simpl.
      apply filter_view_built, selected_images.
    + rewrite (applyFilter_Throw host items w e C E). exact Hw.
  - rewrite (applyFilter_no_cache host w C). repeat constructor.
Qed.

Lemma openModal_cache item : preserves lastFetchedItems (openModal item).
Proof. frame_script. Qed.

Lemma closeModal_cache : preserves lastFetchedItems closeModal.
Proof. frame_script. Qed.

Lemma openModal_button item : preserves getImageBtn (openModal item).
Proof. frame_script. Qed.

Lemma closeModal_button : preserves getImageBtn closeModal.
Proof. frame_script. Qed.

Lemma fetchAndShow_button net w :
  getImageBtn (snd (fetchAndShow host net w))
  = mkButton false (restored_label (textContent (getImageBtn w)))
  /\ aria_busy (gallery (snd (fetchAndShow host net w))) = None.
Proof.
  rewrite fetchAndShow_blocks. unfold finally.
  destruct (try_catch _ _ w) as [r w1].
  rewrite finally_block_run. split; reflexivity.
Qed.

Lemma fetchAndShow_cache_kept net w :
  lastFetchedItems w <> None ->
  lastFetchedItems (snd (fetchAndShow host net w)) <> None.
Proof.
  intros Hw.
  destruct (fetch_failure host (response net)) as [err|] eqn:F.
  - rewrite (fetchAndShow_failure_run host net w err F). exact Hw.
  - destruct (fetch_failure_None host net F) as (data & items & -> & N).
    rewrite (fetchAndShow_caches host _ data items w N). discriminate.
Qed.

End Sessions.

(** X20: whatever the user does, the gallery only ever holds placeholders
    and cards built from image records: on a page where this is so, it is
    still so after any session, with every card's image source, alternative
    text and caption those of the record its click opens. *)
Theorem session_gallery_built (host : Host) (evs : list Event) (w : World) :
  Forall built_node (nodes w) ->
  Forall built_node (nodes (run host evs w)).
Proof.
  revert evs w.
  apply (run_keeps host (fun w => Forall built_node (nodes w))).
  apply (dispatch_keeps host (fun w => Forall built_node (nodes w))).
  - intros net w _. apply fetchAndShow_built.
  - intros w. apply applyFilter_built.
  - intros w Hw. unfold nodes. rewrite closeModal_gallery. exact Hw.
  - intros item w Hw. unfold nodes. rewrite openModal_gallery. exact Hw.
  - intros a b w Hw. exact Hw.
Qed.

Lemma session_gallery_built_witness :
  Forall built_node (nodes initial_page)
  /\ Forall built_node (nodes (run reference_host sample_session initial_page)).
Proof.
  assert (H : Forall built_node (nodes initial_page))
    by (repeat constructor).
  split; [exact H|].
  exact (session_gallery_built reference_host sample_session initial_page H).
Defined.

(** X21: the overlay is never half open.  On a page where it is either
    shown and announced, or hidden, marked hidden and without an image, it
    is one of the two after any session. *)
Theorem session_overlay_coherent
    (host : Host) (evs : list Event) (w : World) :
  overlay_coherent (modal w) ->
  overlay_coherent (modal (run host evs w)).
Proof.
  revert evs w.
  apply (run_keeps host (fun w => overlay_coherent (modal w))).
  apply (dispatch_keeps host (fun w => overlay_coherent (modal w))).
  - intros net w Hw. rewrite fetchAndShow_modal. exact Hw.
  - intros w Hw. rewrite applyFilter_modal. exact Hw.
  - intros w _. right. repeat split.
  - intros item w _. left. repeat split.
  - intros a b w Hw. exact Hw.
Qed.

Lemma session_overlay_coherent_witness :
  overlay_coherent (modal initial_page)
  /\ overlay_coherent
       (modal (run reference_host sample_session initial_page)).
Proof.
  assert (H : overlay_coherent (modal initial_page))
    by (right; repeat split).
  split; [exact H|].
  exact (session_overlay_coherent reference_host sample_session
           initial_page H).
Defined.

(** X22: between events the fetch button is always ready.  On a page where
    the button is enabled, labelled, and the gallery not busy, after any
    session, failed fetches included, the button is enabled with the same
    label and the gallery is not busy. *)
Theorem session_button_ready
    (host : Host) (evs : list Event) (w : World) (label : string) :
  label <> EmptyString ->
  getImageBtn w = mkButton false label ->
  aria_busy (gallery w) = None ->
  getImageBtn (run host evs w) = mkButton false label
  /\ aria_busy (gallery (run host evs w)) = None.
Proof.
  intros Hl. revert evs w.
  assert (H : forall evs w,
             getImageBtn w = mkButton false label
             /\ aria_busy (gallery w) = None ->
             getImageBtn (run host evs w) = mkButton false label
             /\ aria_busy (gallery (run host evs w)) = None).
  { apply (run_keeps host
             (fun w => getImageBtn w = mkButton false label
                       /\ aria_busy (gallery w) = None)).
    apply (dispatch_keeps host (fun w => getImageBtn w = mkButton false label
                       /\ aria_busy (gallery w) = None)).
    - intros net w [Hb _].
      destruct (fetchAndShow_button host net w) as [-> ->].
      rewrite Hb. simpl. rewrite (restored_label_nonempty label Hl). auto.
    - intros w [Hb Ha].
      rewrite applyFilter_button, (applyFilter_busy host w). auto.
    - intros w [Hb Ha]. rewrite closeModal_button, closeModal_gallery. auto.
    - intros item w [Hb Ha].
      rewrite openModal_button, openModal_gallery. auto.
    - intros a b w Hw. exact Hw. }
  intros evs w Hb Ha. apply H. auto.
Qed.

Lemma session_button_ready_witness :
  "Fetch Space Images" <> EmptyString
  /\ getImageBtn initial_page = mkButton false "Fetch Space Images"
  /\ aria_busy (gallery initial_page) = None
  /\ getImageBtn (run reference_host sample_session initial_page)
     = mkButton false "Fetch Space Images"
  /\ aria_busy (gallery (run reference_host sample_session initial_page))
     = None.
Proof.
  assert (Hl : "Fetch Space Images" <> EmptyString) by discriminate.
  split; [exact Hl|]. do 2 (split; [reflexivity|]).
  exact (session_button_ready reference_host sample_session initial_page
           "Fetch Space Images" Hl eq_refl eq_refl).
Defined.

(** X23: the cache is never emptied.  Once a feed is cached, the cache
    holds a feed after any session: a failed fetch keeps the old one, a
    fetch that delivers a body replaces it, nothing else writes it. *)
Theorem session_cache_kept (host : Host) (evs : list Event) (w : World) :
  lastFetchedItems w <> None ->
  lastFetchedItems (run host evs w) <> None.
Proof.
  revert evs w.
  apply (run_keeps host (fun w => lastFetchedItems w <> None)).
  apply (dispatch_keeps host (fun w => lastFetchedItems w <> None)).
  - intros net w. apply fetchAndShow_cache_kept.
  - intros w Hw. rewrite applyFilter_cache. exact Hw.
  - intros w Hw. rewrite closeModal_cache. exact Hw.
  - intros item w Hw. rewrite openModal_cache. exact Hw.
  - intros a b w Hw. exact Hw.
Qed.

Lemma session_cache_kept_witness :
  let w := page sample_items EmptyString EmptyString in
  lastFetchedItems w <> None
  /\ lastFetchedItems
       (run reference_host
          [ClickFilterBtn; ClickGetImageBtn failing_fetch; ClickCard 0] w)
     <> None.
Proof.
  intros w.
  assert (H : lastFetchedItems w <> None) by discriminate.
  split; [exact H|].
  exact (session_cache_kept reference_host _ w H).
Defined.

(** X24: only a click on the fetch button writes the cache, the button or
    the busy mark: a session without such a click, whatever else it holds,
    leaves all three as they were. *)
Theorem session_without_fetch (host : Host) (evs : list Event) (w : World) :
  no_fetch evs ->
  lastFetchedItems (run host evs w) = lastFetchedItems w
  /\ getImageBtn (run host evs w) = getImageBtn w
  /\ aria_busy (gallery (run host evs w)) = aria_busy (gallery w).
Proof.
  intros Hno. revert w. unfold run.
  induction Hno as [|ev evs Hev _ IH]; intros w; simpl; [auto|].
  destruct (IH (dispatch host ev w)) as (-> & -> & ->). clear IH.
  assert (Hwin : forall key w0,
            lastFetchedItems (listener (onWindowKeydown key) w0)
            = lastFetchedItems w0
            /\ getImageBtn (listener (onWindowKeydown key) w0) = getImageBtn w0
            /\ aria_busy (gallery (listener (onWindowKeydown key) w0))
               = aria_busy (gallery w0)).
  { intros key w0. unfold listener, onWindowKeydown, bind, gets.
    destruct ((key =? "Escape")%string && show (modal w0)); repeat split. }
  assert (Hdate : forall key w0,
            lastFetchedItems (listener (onDateKeydown host key) w0)
            = lastFetchedItems w0
            /\ getImageBtn (listener (onDateKeydown host key) w0)
               = getImageBtn w0
            /\ aria_busy (gallery (listener (onDateKeydown host key) w0))
               = aria_busy (gallery w0)).
  { intros key w0. unfold listener, onDateKeydown.
    destruct (key =? "Enter")%string; [|repeat split].
    destruct (applyFilter_frame host w0) as (? & _ & _ & ? & _ & _ & ?).
    auto. }
  destruct ev; simpl in *.
  - destruct Hev.
  - destruct (applyFilter_frame host w) as (? & _ & _ & ? & _ & _ & ?).
    auto.
  - destruct (Hwin key (listener (onDateKeydown host key) w)) as (-> & -> & ->).
    apply Hdate.
  - destruct (Hwin key (listener (onDateKeydown host key) w)) as (-> & -> & ->).
    apply Hdate.
  - apply Hwin.
  - repeat split.
  - repeat split.
  - destruct (nth_error (cards (nodes w)) index); repeat split.
  - repeat split.
  - repeat split.
Qed.

Lemma session_without_fetch_witness :
  let w := page sample_items EmptyString EmptyString in
  let evs := [EditEndDate "2024-01-03"; KeydownEndDate "Enter"; ClickCard 0;
              ClickModalOverlay] in
  no_fetch evs
  /\ lastFetchedItems (run reference_host evs w) = Some sample_items.
Proof.
  intros w evs.
  assert (H : no_fetch evs) by (repeat constructor).
  split; [exact H|].
  exact (proj1 (session_without_fetch reference_host evs w H)).
Defined.

(** ** The earlier versions *)

Section Versions.

Variable host : Host.

(** The part all three versions share: request, status test, parse,
    normalise, render (lines 148-153 and 171).  It throws the response's
    error, or the renderer's on a [null], or renders the records. *)
Lemma request_and_render net w :
  let m := (data <- fetch_json net ;;
            items <- lift (normalize host data) ;;
            buildGallery host items) in
  let w1 := with_now (now w + latency net) w in
  (exists err, fetch_failure host (response net) = Some err
               /\ m w = (Throw err, w1))
  \/ (exists data items,
        net = mkFetch (latency net) (Responded true (Ok data))
        /\ normalize host data = Ok items /\ In Null items
        /\ m w = (Throw (null_item_error host), w1))
  \/ (exists data rs,
        net = mkFetch (latency net) (Responded true (Ok data))
        /\ normalize host data = Ok (map Obj rs)
        /\ m w = (Ok tt,
                  with_gallery (mkGallery (gallery_view (filter is_image rs))
                                          (aria_busy (gallery w))) w1)).
Proof.
  intros m w1. subst m w1.
  destruct (fetch_failure host (response net)) as [err|] eqn:F.
  - left. exists err. split; [reflexivity|].
    destruct net as [lat [e | [|] [data | e]]]; simpl in *;
      try (injection F as <-; reflexivity).
    destruct (normalize host data) as [items|e] eqn:N; [discriminate|].
    injection F as <-.
    erewrite bind_Ok by reflexivity.
    unfold bind, lift. rewrite N. reflexivity.
  - right. destruct (fetch_failure_None host net F) as (data & items & E & N).
    destruct (items_null_or_objects items) as [Hin | [rs ->]].
    + left. exists data, items. repeat split; auto.
      rewrite E at 1. erewrite bind_Ok by reflexivity.
      erewrite bind_Ok by (unfold lift; rewrite N; reflexivity).
      rewrite (buildGallery_Null host items _ Hin). reflexivity.
    + right. exists data, rs. repeat split; auto.
      rewrite E at 1. erewrite bind_Ok by reflexivity.
      erewrite bind_Ok by (unfold lift; rewrite N; reflexivity).
      rewrite buildGallery_Obj. reflexivity.
Qed.

(** What the gallery and the console hold after the current handler, by the
    same three cases. *)
Lemma fetchAndShow_shows net w :
  let w' := snd (fetchAndShow host net w) in
  (exists err, fetch_failure host (response net) = Some err
               /\ nodes w' = [Placeholder false false (msg_error err)]
               /\ console w' = (console w ++ [("Fetch error:", err)])%list)
  \/ (exists data items,
        net = mkFetch (latency net) (Responded true (Ok data))
        /\ normalize host data = Ok items /\ In Null items
        /\ nodes w'
           = [Placeholder false false (msg_error (null_item_error host))]
        /\ console w'
           = (console w ++ [("Fetch error:", null_item_error host)])%list)
  \/ (exists data rs,
        net = mkFetch (latency net) (Responded true (Ok data))
        /\ normalize host data = Ok (map Obj rs)
        /\ nodes w' = gallery_view (filter is_image rs)
        /\ console w' = console w).
Proof.
  intros w'. subst w'.
  destruct (fetch_failure host (response net)) as [err|] eqn:F.
  - left. exists err. rewrite (fetchAndShow_failure_run host net w err F).
    repeat split.
  - right. destruct (fetch_failure_None host net F) as (data & items & E & N).
    destruct net as [lat resp]. simpl in E. injection E as ->. simpl latency.
    destruct (items_null_or_objects items) as [Hin | [rs ->]].
    + left. exists data, items.
      rewrite (fetchAndShow_null_run host _ data items w N Hin).
      repeat split; auto.
    + right. exists data, rs.
      rewrite (fetchAndShow_success_run host _ data rs w N).
      repeat split; auto.
Qed.

End Versions.

Section VersionRuns.

Variable host : Host.

Lemma has_null_In items : In Null items -> has_null items = true.
Proof.
  intros H. apply existsb_exists. exists Null. auto.
Qed.

Lemma has_null_Obj rs : has_null (map Obj rs) = false.
Proof. induction rs as [|r rs IH]; [reflexivity | exact IH]. Qed.

Lemma objects_Obj rs : objects (map Obj rs) = rs.
Proof.
  induction rs as [|r rs IH]; [reflexivity|]. simpl. f_equal. exact IH.
Qed.

Lemma fetch_outcome_failure r err :
  fetch_failure host r = Some err -> fetch_outcome host r = Throw err.
Proof.
  destruct r as [e | [|] [data | e]]; simpl; try (intros [= <-]; reflexivity).
  destruct (normalize host data); [discriminate | intros [= <-]; reflexivity].
Qed.

Lemma fetch_outcome_null data items :
  normalize host data = Ok items -> In Null items ->
  fetch_outcome host (Responded true (Ok data))
  = Throw (null_item_error host).
Proof.
  intros N Hin. simpl. rewrite N, (has_null_In items Hin). reflexivity.
Qed.

Lemma fetch_outcome_records data rs :
  normalize host data = Ok (map Obj rs) ->
  fetch_outcome host (Responded true (Ok data)) = Ok rs.
Proof.
  intros N. simpl. rewrite N, has_null_Obj, objects_Obj. reflexivity.
Qed.

(** The error handling the two earlier versions share (lines 99-100 and
    203-204). *)
Lemma error_shown_run err w :
  (set_innerHTML [Placeholder false false (msg_error err)] ;;
   modify (fun w0 => with_console (console w0 ++ [("Fetch error:", err)]) w0))
    w
  = (Ok tt,
     with_console (console w ++ [("Fetch error:", err)])
       (with_gallery (mkGallery [Placeholder false false (msg_error err)]
                                (aria_busy (gallery w))) w)).
Proof. reflexivity. Qed.

(** The current handler, by outcome. *)
Lemma fetchAndShow_by_outcome net w :
  let o := fetch_outcome host (response net) in
  nodes (snd (fetchAndShow host net w)) = outcome_nodes o
  /\ console (snd (fetchAndShow host net w)) = outcome_console o (console w).
Proof.
  intros o. subst o.
  destruct (fetchAndShow_shows host net w)
    as [(err & F & -> & ->)
       | [(data & items & E & N & Hin & -> & ->)
         | (data & rs & E & N & -> & ->)]].
  - rewrite (fetch_outcome_failure _ _ F). split; reflexivity.
  - rewrite E. simpl response.
    rewrite (fetch_outcome_null data items N Hin). split; reflexivity.
  - rewrite E. simpl response.
    rewrite (fetch_outcome_records data rs N). split; reflexivity.
Qed.

(** The first version, by outcome: the whole page it leaves. *)
Lemma Draft1_run net w :
  let o := fetch_outcome host (response net) in
  Draft1.fetchAndShow host net w
  = (Ok tt,
     mkWorld (getImageBtn w)
             (mkGallery (outcome_nodes o) (aria_busy (gallery w)))
             (modal w) (startDateInput w) (endDateInput w)
             (lastFetchedItems w) (outcome_console o (console w))
             (now w + latency net)).
Proof.
  intros o. subst o. unfold Draft1.fetchAndShow, try_catch.
  erewrite bind_Ok by reflexivity.
  match goal with
  | |- context [bind (fetch_json net) ?k ?w0] =>
      destruct (request_and_render host net w0)
        as [(err & F & Hm)
           | [(data & items & E & N & Hin & Hm)
             | (data & rs & E & N & Hm)]]
  end; rewrite Hm.
  - rewrite (fetch_outcome_failure _ _ F). reflexivity.
  - rewrite E. simpl response. simpl latency.
    rewrite (fetch_outcome_null data items N Hin). reflexivity.
  - rewrite E. simpl response. simpl latency.
    rewrite (fetch_outcome_records data rs N). reflexivity.
Qed.

(** The second version, by outcome: the whole page it leaves. *)
Lemma Draft2_run net w :
  let o := fetch_outcome host (response net) in
  Draft2.fetchAndShow host net w
  = (Ok tt,
     mkWorld (mkButton false (restored_label (textContent (getImageBtn w))))
             (mkGallery (outcome_nodes o) None)
             (modal w) (startDateInput w) (endDateInput w)
             (lastFetchedItems w) (outcome_console o (console w))
             (Z.max (now w + latency net) (now w + MIN_LOADING_MS))).
Proof.
  intros o. subst o. unfold Draft2.fetchAndShow.
  erewrite bind_Ok by reflexivity. erewrite bind_Ok by reflexivity.
  unfold finally, try_catch.
  erewrite bind_Ok by reflexivity. erewrite bind_Ok by reflexivity.
  match goal with
  | |- context [bind (fetch_json net) ?k ?w0] =>
      destruct (request_and_render host net w0)
        as [(err & F & Hm)
           | [(data & items & E & N & Hin & Hm)
             | (data & rs & E & N & Hm)]]
  end; rewrite Hm; clear Hm.
  - rewrite (fetch_outcome_failure _ _ F).
    rewrite error_shown_run. cbv beta iota.
    erewrite (bind_Ok (wait_minimum _)) by apply wait_minimum_exact.
    reflexivity.
  - rewrite E. simpl response. simpl latency.
    rewrite (fetch_outcome_null data items N Hin).
    rewrite error_shown_run. cbv beta iota.
    erewrite (bind_Ok (wait_minimum _)) by apply wait_minimum_exact.
    reflexivity.
  - rewrite E. simpl response. simpl latency.
    rewrite (fetch_outcome_records data rs N).
    erewrite (bind_Ok (wait_minimum _)) by apply wait_minimum_exact.
    reflexivity.
Qed.

End VersionRuns.

(** X25: the three versions of the fetch handler show and log the same.  For
    every response and every page, the two versions in src/js/script.js leave
    the same children in the gallery and the same console as the current
    handler: the cache, the fade and the button handling added since changed
    neither what is rendered nor what is reported. *)
Theorem versions_show_the_same (host : Host) (net : Fetch) (w : World) :
  let current := snd (fetchAndShow host net w) in
  let first := snd (Draft1.fetchAndShow host net w) in
  let second := snd (Draft2.fetchAndShow host net w) in
  nodes first = nodes current
  /\ nodes second = nodes current
  /\ console first = console current
  /\ console second = console current.
Proof.
  intros current first second. subst current first second.
  destruct (fetchAndShow_by_outcome host net w) as [-> ->].
  rewrite Draft1_run, Draft2_run. repeat split.
Qed.

(** X26: the second version.  It never throws, ends with the button and the
    busy mark exactly as the current handler leaves them, caches nothing,
    and, without a fade, takes [max latency 1200] ms. *)
Theorem Draft2_fetchAndShow (host : Host) (net : Fetch) (w : World) :
  let w' := snd (Draft2.fetchAndShow host net w) in
  fst (Draft2.fetchAndShow host net w) = Ok tt
  /\ getImageBtn w' = getImageBtn (snd (fetchAndShow host net w))
  /\ aria_busy (gallery w') = None
  /\ lastFetchedItems w' = lastFetchedItems w
  /\ now w' - now w = Z.max (latency net) MIN_LOADING_MS.
Proof.
  intros w'. subst w'.
  destruct (fetchAndShow_button host net w) as [-> _].
  rewrite Draft2_run. simpl. repeat split. lia.
Qed.

(** X27: the first version.  It never throws and writes the gallery's
    children and the console only: the button is never disabled or
    relabelled, the gallery is never marked busy, nothing is cached, and the
    handler ends as soon as the response is there. *)
Theorem Draft1_fetchAndShow (host : Host) (net : Fetch) (w : World) :
  let w' := snd (Draft1.fetchAndShow host net w) in
  fst (Draft1.fetchAndShow host net w) = Ok tt
  /\ getImageBtn w' = getImageBtn w
  /\ aria_busy (gallery w') = aria_busy (gallery w)
  /\ lastFetchedItems w' = lastFetchedItems w
  /\ modal w' = modal w
  /\ now w' = now w + latency net.
Proof.
  intros w'. subst w'. rewrite Draft1_run. repeat split.
Qed.

(** ** Fetching and filtering together *)

(** X28: right after a fetch that rendered records, a filter with both
    inputs empty shows the same gallery again: the unfiltered view is the
    view the fetch left. *)
Theorem filter_after_fetch
    (host : Host) (lat : Z) (data : Payload) (rs : list Apod) (w : World) :
  normalize host data = Ok (map Obj rs) ->
  startDateInput w = EmptyString ->
  endDateInput w = EmptyString ->
  let fetched :=
    snd (fetchAndShow host (mkFetch lat (Responded true (Ok data))) w) in
  fst (applyFilter host fetched) = Ok tt
  /\ gallery (snd (applyFilter host fetched)) = gallery fetched.
Proof.
  intros N Ha Hb fetched. subst fetched.
  rewrite (fetchAndShow_success_run host lat data rs w N). cbn [snd].
  match goal with
  | |- context [applyFilter host ?w1] =>
      destruct (applyFilter_Obj host rs w1 eq_refl) as [Hok Hg]
  end.
  split; [exact Hok|]. rewrite Hg. simpl. rewrite Ha, Hb. reflexivity.
Qed.

Lemma filter_after_fetch_witness :
  let data := PArray sample_items in
  let fetched :=
    snd (fetchAndShow reference_host (mkFetch 40 (Responded true (Ok data)))
           initial_page) in
  normalize reference_host data = Ok (map Obj [record_A; record_B; record_C])
  /\ startDateInput initial_page = EmptyString
  /\ endDateInput initial_page = EmptyString
  /\ shown (nodes fetched) = [record_A; record_C]
  /\ gallery (snd (applyFilter reference_host fetched)) = gallery fetched.
Proof.
  intros data fetched. subst fetched.
  do 4 (split; [reflexivity|]).
  exact (proj2 (filter_after_fetch reference_host 40 data
                  [record_A; record_B; record_C] initial_page
                  eq_refl eq_refl eq_refl)).
Defined.

(** X29: a failed fetch does not change what a filter shows.  When records
    are cached and a fetch fails, no card is left in the gallery; a filter
    run then returns normally and leaves in the gallery exactly what it
    would have left had it run before the fetch. *)
Theorem filter_after_failed_fetch
    (host : Host) (net : Fetch) (err : JsError) (rs : list Apod) (w : World) :
  fetch_failure host (response net) = Some err ->
  lastFetchedItems w = Some (map Obj rs) ->
  let failed := snd (fetchAndShow host net w) in
  cards (nodes failed) = []
  /\ fst (applyFilter host failed) = Ok tt
  /\ nodes (snd (applyFilter host failed)) = nodes (snd (applyFilter host w)).
Proof.
  intros F Hc failed. subst failed.
  rewrite (fetchAndShow_failure_run host net w err F). cbn [snd].
  split; [reflexivity|].
  match goal with
  | |- context [applyFilter host ?w1] =>
      match w1 with
      | w => fail 1
      | _ => destruct (applyFilter_Obj host rs w1 Hc) as [Hok Hg]
      end
  end.
  destruct (applyFilter_Obj host rs w Hc) as [_ Hg0].
  split; [exact Hok|]. unfold nodes. rewrite Hg, Hg0. reflexivity.
Qed.

Lemma filter_after_failed_fetch_witness :
  let w := page sample_items EmptyString "2024-01-03" in
  let failed := snd (fetchAndShow reference_host failing_fetch w) in
  fetch_failure reference_host (response failing_fetch)
  = Some (TypeError "Failed to fetch")
  /\ lastFetchedItems w = Some (map Obj [record_A; record_B; record_C])
  /\ cards (nodes failed) = []
  /\ shown (nodes (snd (applyFilter reference_host failed))) = [record_A].
Proof.
  intros w failed. subst failed.
  destruct (filter_after_failed_fetch reference_host failing_fetch
              (TypeError "Failed to fetch") [record_A; record_B; record_C] w
              eq_refl eq_refl) as (Hn & _ & Hs).
  do 2 (split; [reflexivity|]).
  split; [exact Hn | rewrite Hs; reflexivity].
Defined.

(** ** The inclusive range, by the two inputs *)

Section RangeByInputs.

Variable host : Host.






End RangeByInputs.



